(** * learnEng: the vocabulary drill of [src/App.jsx]

    A shallow embedding of the non-presentational logic of the
    [VocabularyApp] component: the row parser inside [loadData], the
    answer check, the navigation handlers and the two percentage displays,
    followed by the properties of the specification that they satisfy or
    violate. *)

From Stdlib Require Import ZArith List String Ascii Bool Lia Permutation.
From Stdlib Require Import DecimalString Floats Uint63.
Import ListNotations.

Open Scope Z_scope.

(* ================================================================== *)
(** * The JavaScript values and builtins the component relies on      *)
(* ================================================================== *)

Module Js.

(** Cell values as the spreadsheet decoder hands them over
    ([sheet_to_json] with [header: 1]): a hole or missing index reads as
    [undefined], text cells are strings, numeric cells are numbers and
    logical cells are booleans.  Strings are sequences of 8-bit
    characters; the program only tests numbers for truthiness, so an
    integer stands for a numeric cell. *)
Inductive value : Type :=
| VUndefined
| VString (s : string)
| VNumber (n : Z)
| VBoolean (b : bool).

(** An abrupt completion: every exception the modelled code can raise is
    a [TypeError]. *)
Inductive error : Type := TypeError.

Inductive completion (A : Type) : Type :=
| Normal (a : A)
| Throw (e : error).
Arguments Normal {A} a.
Arguments Throw {A} e.

Definition bind {A B : Type} (c : completion A) (k : A -> completion B)
  : completion B :=
  match c with
  | Normal a => k a
  | Throw e => Throw e
  end.

(** [ToBoolean]. *)
Definition truthy (v : value) : bool :=
  match v with
  | VUndefined => false
  | VString s => negb (String.eqb s EmptyString)
  | VNumber n => negb (n =? 0)
  | VBoolean b => b
  end.

(** [a || b]. *)
Definition or (a b : value) : value := if truthy a then a else b.

(** [row[i]] on an array: out of range reads [undefined]. *)
Definition index (row : list value) (i : nat) : value := nth i row VUndefined.

(** [arr[i]] for a numeric index held in a state variable. *)
Definition at_index {A : Type} (arr : list A) (i : Z) : option A :=
  if i <? 0 then None else nth_error arr (Z.to_nat i).

(** ** String builtins

    [toLowerCase] and [trim] below are the ASCII fragments of
    [String.prototype.toLowerCase] and [String.prototype.trim]: they agree
    with the builtins on texts of ASCII characters, leave every other
    character alone and strip only TAB, LF, VT, FF, CR and SPACE.  Where a
    statement has to hold of the builtins on every text, the two functions
    are arguments (see [checkAnswerWith]). *)

Definition lower_char (c : ascii) : ascii :=
  let n := nat_of_ascii c in
  if (Nat.leb 65 n && Nat.leb n 90)%bool then ascii_of_nat (n + 32) else c.

Fixpoint toLowerCase (s : string) : string :=
  match s with
  | EmptyString => EmptyString
  | String c rest => String (lower_char c) (toLowerCase rest)
  end.

(** TAB, LF, VT, FF, CR and SPACE. *)
Definition is_white_space (c : ascii) : bool :=
  let n := nat_of_ascii c in
  (Nat.leb 9 n && Nat.leb n 13 || Nat.eqb n 32)%bool.

Fixpoint trimStart (s : string) : string :=
  match s with
  | EmptyString => EmptyString
  | String c rest => if is_white_space c then trimStart rest else s
  end.

Fixpoint trimEnd (s : string) : string :=
  match s with
  | EmptyString => EmptyString
  | String c rest =>
      match trimEnd rest with
      | EmptyString => if is_white_space c then EmptyString
                       else String c EmptyString
      | kept => String c kept
      end
  end.

Definition trim (s : string) : string := trimEnd (trimStart s).

(** [s.includes(sep)]. *)
Fixpoint includes (s sep : string) : bool :=
  (String.prefix sep s
   || match s with
      | EmptyString => false
      | String _ rest => includes rest sep
      end)%bool.

(** [s.split(sep)] for a non-empty separator.  [skip] counts the
    characters of a separator occurrence that are still to be passed
    over. *)
Fixpoint split_from (sep : string) (skip : nat) (s : string) : list string :=
  match s with
  | EmptyString => [EmptyString]
  | String c rest =>
      match skip with
      | S k => split_from sep k rest
      | O =>
          if String.prefix sep s
          then EmptyString :: split_from sep (String.length sep - 1) rest
          else match split_from sep 0 rest with
               | piece :: pieces => String c piece :: pieces
               | [] => [String c EmptyString]
               end
      end
  end.

Definition split (s sep : string) : list string := split_from sep 0 s.

(** Method calls on a cell value: a string method on [undefined], a
    number or a boolean raises [TypeError]. *)
Definition call_string_method (method : string -> string) (v : value)
  : completion string :=
  match v with
  | VString s => Normal (method s)
  | _ => Throw TypeError
  end.

Definition call_toLowerCase (v : value) : completion string :=
  call_string_method toLowerCase v.

Definition call_includes (v : value) (sep : string) : completion bool :=
  match v with
  | VString s => Normal (includes s sep)
  | _ => Throw TypeError
  end.

(** [v.split(sep)[i]] *)
Definition call_split_at (v : value) (sep : string) (i : nat)
  : completion value :=
  match v with
  | VString s =>
      Normal (match nth_error (split s sep) i with
              | Some piece => VString piece
              | None => VUndefined
              end)
  | _ => Throw TypeError
  end.

(** [ToString], as applied by template-literal interpolation. *)
Definition ToString (v : value) : string :=
  match v with
  | VUndefined => "undefined"
  | VString s => s
  | VNumber n => NilZero.string_of_int (Z.to_int n)
  | VBoolean b => if b then "true" else "false"
  end.

Definition double_quote : string := String (ascii_of_nat 34) EmptyString.

(** ** Numbers for the percentage display: IEEE-754 doubles *)

(** The double holding a count; the score fields are non-negative
    integers far below [2^53]. *)
Definition toNumber (z : Z) : float := PrimFloat.of_uint63 (Uint63.of_Z z).

(** What is shown for the result of [Math.round]. *)
Inductive rounded : Type :=
| RNaN
| RInfinity (negative : bool)
| RInt (z : Z).

(** [Math.round]: the nearest integer, ties towards plus infinity,
    computed exactly from mantissa and exponent; [NaN] and the
    infinities are returned as they are. *)
Definition Math_round (x : float) : rounded :=
  match Prim2SF x with
  | S754_nan => RNaN
  | S754_infinity s => RInfinity s
  | S754_zero _ => RInt 0
  | S754_finite s m e =>
      let v := if s then Z.neg m else Z.pos m in
      RInt (if 0 <=? e then v * 2 ^ e
            else (2 * v + 2 ^ (- e)) / 2 ^ (1 - e))
  end.

End Js.

Import Js.

Notation "x <- c ;; k" := (bind c (fun x => k))
  (at level 61, c at next level, right associativity).

(** ['\r\n'] *)
Definition CRLF : string :=
  String (ascii_of_nat 13) (String (ascii_of_nat 10) EmptyString).

(* ================================================================== *)
(** * The component state                                             *)
(* ================================================================== *)

(** An element of [exercisesData] (lines 35-43). *)
Record exercise : Type := mkExercise {
  id : value;
  word : value;
  hint : value;
  sentence : value;
  blankedWord : value;
  meaning : value;
  pronunciation : value
}.

(** The object literal [{}]: every property reads [undefined]. *)
Definition emptyObject : exercise :=
  mkExercise VUndefined VUndefined VUndefined VUndefined
             VUndefined VUndefined VUndefined.

Record score : Type := mkScore { correct : Z; total : Z }.

(** ['normal'] or ['review'] (line 14). *)
Inductive mode : Type := normal | review.

(** The nine [useState] cells (lines 6-14); [isCorrect] is [null], [true]
    or [false]. *)
Record state : Type := mkState {
  exercises : list exercise;
  currentExerciseIndex : Z;
  userAnswer : string;
  feedback : string;
  isCorrect : option bool;
  showMeaning : bool;
  loading : bool;
  stats : score;
  exerciseMode : mode
}.

Definition initialState : state :=
  mkState [] 0 EmptyString EmptyString None false true (mkScore 0 0) normal.

Definition setExercises (v : list exercise) (s : state) : state :=
  mkState v (currentExerciseIndex s) (userAnswer s) (feedback s) (isCorrect s)
          (showMeaning s) (loading s) (stats s) (exerciseMode s).

Definition setCurrentExerciseIndex (v : Z) (s : state) : state :=
  mkState (exercises s) v (userAnswer s) (feedback s) (isCorrect s)
          (showMeaning s) (loading s) (stats s) (exerciseMode s).

Definition setUserAnswer (v : string) (s : state) : state :=
  mkState (exercises s) (currentExerciseIndex s) v (feedback s) (isCorrect s)
          (showMeaning s) (loading s) (stats s) (exerciseMode s).

Definition setFeedback (v : string) (s : state) : state :=
  mkState (exercises s) (currentExerciseIndex s) (userAnswer s) v (isCorrect s)
          (showMeaning s) (loading s) (stats s) (exerciseMode s).

Definition setIsCorrect (v : option bool) (s : state) : state :=
  mkState (exercises s) (currentExerciseIndex s) (userAnswer s) (feedback s) v
          (showMeaning s) (loading s) (stats s) (exerciseMode s).

Definition setShowMeaning (v : bool) (s : state) : state :=
  mkState (exercises s) (currentExerciseIndex s) (userAnswer s) (feedback s)
          (isCorrect s) v (loading s) (stats s) (exerciseMode s).

Definition setLoading (v : bool) (s : state) : state :=
  mkState (exercises s) (currentExerciseIndex s) (userAnswer s) (feedback s)
          (isCorrect s) (showMeaning s) v (stats s) (exerciseMode s).

(** [setStats(prev => f(prev))] *)
Definition setStats (f : score -> score) (s : state) : state :=
  mkState (exercises s) (currentExerciseIndex s) (userAnswer s) (feedback s)
          (isCorrect s) (showMeaning s) (loading s) (f (stats s))
          (exerciseMode s).

Definition setExerciseMode (v : mode) (s : state) : state :=
  mkState (exercises s) (currentExerciseIndex s) (userAnswer s) (feedback s)
          (isCorrect s) (showMeaning s) (loading s) (stats s) v.

(** The screen the render function selects (lines 203, 207, 235): the
    session mode of the specification. *)
Inductive session : Type := Loading | Review | Active.

Definition sessionMode (s : state) : session :=
  if loading s then Loading
  else match exerciseMode s with
       | review => Review
       | normal => Active
       end.

(* ================================================================== *)
(** * The row parser and the loader ([loadData], lines 16-50)         *)
(* ================================================================== *)

(** Lines 30-33: [let sentence = row[8]], replaced by
    [sentence.split('\r\n')[1]] when it is truthy and includes CRLF. *)
Definition questionSentence (row : list value) : completion value :=
  let sentence := index row 8 in
  if truthy sentence then
    has_break <- call_includes sentence CRLF ;;
    if has_break then call_split_at sentence CRLF 1 else Normal sentence
  else Normal sentence.

(** Lines 30-43: the object pushed for one non-empty row. *)
Definition exerciseOfRow (row : list value) : completion exercise :=
  sentence <- questionSentence row ;;
  Normal {| id := index row 0;
            word := index row 5;
            hint := index row 7;
            sentence := or sentence (index row 4);
            blankedWord := index row 6;
            meaning := index row 3;
            pronunciation := index row 2 |}.

(** The body of the [for] loop (lines 26-44) over the rows still to be
    visited, [exercisesData] being the array built so far. *)
Fixpoint processRows (rows : list (list value)) (exercisesData : list exercise)
  : completion (list exercise) :=
  match rows with
  | [] => Normal exercisesData
  | row :: rest =>
      if Nat.eqb (List.length row) 0 then processRows rest exercisesData
      else e <- exerciseOfRow row ;; processRows rest (exercisesData ++ [e])
  end.

(** The loop starts at [i = 1]: the header row is never visited. *)
Definition parseRows (rawData : list (list value)) : completion (list exercise) :=
  processRows (skipn 1 rawData) [].

(** [loadData], from the decoded sheet [rawData] on.  [shuffle] is lodash's
    [_.shuffle], an argument here.  An exception rejects the promise before
    any setter has run. *)
Definition loadData (shuffle : list exercise -> list exercise)
    (rawData : list (list value)) (s : state) : completion state :=
  exercisesData <- parseRows rawData ;;
  Normal (setLoading false
            (setCurrentExerciseIndex 0
               (setExercises (shuffle exercisesData) s))).

(* ================================================================== *)
(** * The handlers (lines 63-117)                                     *)
(* ================================================================== *)

(** Line 63: [exercises[currentExerciseIndex] || {}]. *)
Definition currentExercise (s : state) : exercise :=
  match at_index (exercises s) (currentExerciseIndex s) with
  | Some e => e
  | None => emptyObject
  end.

Definition correctFeedback : string := "Correct! ðŸŽ‰".

(** [`Not quite. The correct answer is "${word}"`] *)
Definition notQuiteFeedback (w : value) : string :=
  ("Not quite. The correct answer is "
     ++ double_quote ++ ToString w ++ double_quote)%string.

(** Lines 65-79, for whatever functions the builtins
    [String.prototype.toLowerCase] and [String.prototype.trim] are (a
    string stands for a text in a fixed encoding).
    [currentExercise.word.toLowerCase()] is the first thing evaluated:
    when [word] is not a string it throws and no setter runs. *)
Definition checkAnswerWith (toLowerCase trim : string -> string) (s : state)
  : completion state :=
  lowered <- call_string_method toLowerCase (word (currentExercise s)) ;;
  let correctAnswer := trim lowered in
  let userInput := trim (toLowerCase (userAnswer s)) in
  let isAnswerCorrect := String.eqb correctAnswer userInput in
  Normal
    (setStats (fun prev =>
                 {| correct := correct prev + (if isAnswerCorrect then 1 else 0);
                    total := total prev + 1 |})
       (setFeedback (if isAnswerCorrect then correctFeedback
                     else notQuiteFeedback (word (currentExercise s)))
          (setIsCorrect (Some isAnswerCorrect) s))).

(** [checkAnswer] on texts of ASCII characters. *)
Definition checkAnswer (s : state) : completion state :=
  checkAnswerWith toLowerCase trim s.

(** Lines 99-104. *)
Definition resetExerciseState (s : state) : state :=
  setShowMeaning false
    (setIsCorrect None
       (setFeedback EmptyString
          (setUserAnswer EmptyString s))).

(** Lines 81-90, as the closure it is: [nextExercise] reads
    [currentExerciseIndex] and [exercises] of the render that created it,
    [render], while its setters write the cells of the live state [s]. *)
Definition nextExerciseIn (render s : state) : state :=
  if currentExerciseIndex render
     <? Z.of_nat (List.length (exercises render)) - 1
  then resetExerciseState
         (setCurrentExerciseIndex (currentExerciseIndex render + 1) s)
  else setExerciseMode review s.

(** Lines 92-97, likewise. *)
Definition prevExerciseIn (render s : state) : state :=
  if currentExerciseIndex render >? 0
  then resetExerciseState
         (setCurrentExerciseIndex (currentExerciseIndex render - 1) s)
  else s.

(** The [nextExercise] and [prevExercise] of the render on screen: what
    the Next Exercise and Previous buttons call, and what the key listener
    calls when it was installed in that render. *)
Definition nextExercise (s : state) : state := nextExerciseIn s s.

Definition prevExercise (s : state) : state := prevExerciseIn s s.

(** Lines 106-113. *)
Definition restartExercises (s : state) : state :=
  setLoading true
    (resetExerciseState
       (setExerciseMode normal
          (setStats (fun _ => {| correct := 0; total := 0 |})
             (setCurrentExerciseIndex 0
                (setExercises [] s))))).

(** Lines 115-117. *)
Definition toggleMeaning (s : state) : state :=
  setShowMeaning (negb (showMeaning s)) s.

(** The window [keydown] listener (lines 135-141), which is installed in
    every mode.  It calls the [nextExercise] and [prevExercise] of the
    render in which the effect last ran, [render]; see [page] below for
    when that is. *)
Inductive key : Type := ArrowRight | ArrowLeft | OtherKey.

Definition handleKeyDownIn (render : state) (k : key) (s : state) : state :=
  match k with
  | ArrowRight => nextExerciseIn render s
  | ArrowLeft => prevExerciseIn render s
  | OtherKey => s
  end.

(** The listener when it was installed in the render on screen, and runs
    of keys under that condition. *)
Definition handleKeyDown (k : key) (s : state) : state :=
  handleKeyDownIn s k s.

Definition handleKeys (ks : list key) (s : state) : state :=
  fold_left (fun st k => handleKeyDown k st) ks s.

(** The answer field's [onChange] (line 267) and its Enter handler
    (lines 271-275), which submits only a truthy answer that has not been
    checked yet. *)
Definition typeAnswer (text : string) (s : state) : state := setUserAnswer text s.

Definition pressEnter (s : state) : completion state :=
  if (negb (String.eqb (userAnswer s) EmptyString)
      && match isCorrect s with None => true | Some _ => false end)%bool
  then checkAnswer s
  else Normal s.

(* ================================================================== *)
(** * The percentage displays                                         *)
(* ================================================================== *)

(** [Math.round((stats.correct / stats.total) * 100)] *)
Definition percentage (st : score) : rounded :=
  Math_round
    (PrimFloat.mul
       (PrimFloat.div (toNumber (correct st)) (toNumber (total st)))
       (toNumber 100)).

(** Review screen, line 214: no guard. *)
Definition reviewPercentage (s : state) : rounded := percentage (stats s).

(** Active score line, line 342: [stats.total > 0 ? ... : 0]. *)
Definition activePercentage (s : state) : rounded :=
  if total (stats s) >? 0 then percentage (stats s) else RInt 0.

(* ================================================================== *)
(** * Vocabulary of the specification                                 *)
(* ================================================================== *)

Fixpoint dropChars (n : nat) (s : string) : string :=
  match n, s with
  | S k, String _ rest => dropChars k rest
  | _, _ => s
  end.

(** The text after the first CRLF of [s], if [s] has one. *)
Fixpoint afterFirstBreak (s : string) : option string :=
  match s with
  | EmptyString => None
  | String _ rest =>
      if String.prefix CRLF s then Some (dropChars 2 s)
      else afterFirstBreak rest
  end.

(** The text before the first CRLF of [s]; all of [s] if it has none. *)
Fixpoint beforeFirstBreak (s : string) : string :=
  match s with
  | EmptyString => EmptyString
  | String c rest =>
      if String.prefix CRLF s then EmptyString
      else String c (beforeFirstBreak rest)
  end.

(** A row the loop does not skip. *)
Definition nonEmptyRow (row : list value) : bool :=
  negb (Nat.eqb (List.length row) 0).

(** The question cell is text, or is empty or otherwise falsy. *)
Definition questionIsText (row : list value) : bool :=
  match index row 8 with
  | VUndefined => true
  | VString _ => true
  | other => negb (truthy other)
  end.

(** The attempt state right after a reset. *)
Definition attemptIsReset (s : state) : Prop :=
  userAnswer s = EmptyString /\ feedback s = EmptyString
  /\ isCorrect s = None /\ showMeaning s = false.

(** Two states that differ at most in the attempt state. *)
Definition sameOutsideAttempt (s s' : state) : Prop :=
  exercises s' = exercises s
  /\ currentExerciseIndex s' = currentExerciseIndex s
  /\ loading s' = loading s
  /\ stats s' = stats s
  /\ exerciseMode s' = exerciseMode s.

(** The cursor is outside the exercise array. *)
Definition cursorOutOfRange (s : state) : Prop :=
  currentExerciseIndex s < 0
  \/ Z.of_nat (List.length (exercises s)) <= currentExerciseIndex s.

(* ================================================================== *)
(** * Sample data                                                     *)
(* ================================================================== *)

Definition textRow (n : Z) (w example question : string) : list value :=
  [VNumber n; VUndefined; VString "pron"; VString "meaning"; VString example;
   VString w; VString "_____"; VString "hint"; VString question].

Definition headerRow : list value := [VString "Id"; VString "Word"].

(** A question with two line breaks. *)
Definition twoBreaks : string :=
  ("Question 1" ++ CRLF ++ "She ate an _____." ++ CRLF ++ "(fruit)")%string.

(** A data row that stops before the word column. *)
Definition shortRow : list value := [VNumber 7; VUndefined; VString "pron"].

(** A data row whose question cell is numeric. *)
Definition numericQuestionRow : list value :=
  [VNumber 3; VUndefined; VString "pron"; VString "meaning"; VString "example";
   VString "three"; VString "_____"; VString "th"; VNumber 2024].

Definition anExercise (w : value) : exercise :=
  mkExercise (VNumber 1) w (VString "hint") (VString "A sentence.")
             (VString "_____") (VString "meaning") (VString "pron").

Definition dogCatBird : list exercise :=
  [anExercise (VString "dog"); anExercise (VString "cat");
   anExercise (VString "bird")].

(** The session right after a sheet with [exs] has been loaded. *)
Definition loaded (exs : list exercise) : state :=
  mkState exs 0 EmptyString EmptyString None false false (mkScore 0 0) normal.

(** A pass that has ended: last exercise answered, review on display. *)
Definition finishedSession : state :=
  mkState dogCatBird 2 "bird" correctFeedback (Some true) true false
          (mkScore 1 2) review.


(* ================================================================== *)
(** * The remaining handlers and the rendered page                    *)
(* ================================================================== *)

(** Lines 52-61: [event.target.files[0]] is absent when the dialog is
    dismissed; otherwise the file is read and handed to [loadData].  The
    file stands here for its decoded rows, the draw of [_.shuffle] comes
    with it. *)
Definition handleFileChange (shuffle : list exercise -> list exercise)
    (file : option (list (list value))) (s : state) : completion state :=
  match file with
  | Some rawData => loadData shuffle rawData s
  | None => Normal s
  end.

(** Lines 119-132, on [event.key]. *)
Definition handleKeyPress (eventKey : string) (s : state) : completion state :=
  if String.eqb eventKey "Enter" then
    match isCorrect s with
    | None => checkAnswer s
    | Some _ => Normal (nextExercise s)
    end
  else if (String.eqb eventKey "r" || String.eqb eventKey "R")%bool then
    Normal (setFeedback EmptyString
              (setIsCorrect None
                 (setUserAnswer EmptyString
                    (resetExerciseState s))))
  else Normal s.

(** Lines 216-224: which of the two boxes the review screen shows. *)
Inductive message : Type := PerfectScore | GoodJob.

Definition reviewMessage (s : state) : message :=
  if correct (stats s) =? total (stats s) then PerfectScore else GoodJob.

(** What the user can do on the page. *)
Inductive event : Type :=
| SelectFile (shuffle : list exercise -> list exercise)
             (file : option (list (list value)))
| InputChange (text : string)
| InputEnter
| ClickPrevious
| ClickToggleMeaning
| ClickRetry
| ClickCheck
| ClickNext
| ClickStartAgain
| WindowKeyDown (k : key).

Definition unanswered (s : state) : bool :=
  match isCorrect s with None => true | Some _ => false end.

Definition isActive (s : state) : bool :=
  match sessionMode s with Active => true | _ => false end.

(** What the render function puts on the screen and leaves enabled
    (lines 170-176, 203-207, 263-276, 300-336): the file input and the
    window listener in every mode, Start Again on the review screen only,
    the card and its buttons on the active screen only; the answer field
    is disabled once checked, Previous at cursor 0, Check Answer while the
    answer is empty, and Check Answer and Next Exercise take each other's
    place. *)
Definition offered (ev : event) (s : state) : bool :=
  match ev with
  | SelectFile _ _ => true
  | WindowKeyDown _ => true
  | ClickStartAgain =>
      match sessionMode s with Review => true | _ => false end
  | InputChange _ => isActive s && unanswered s
  | InputEnter => isActive s && unanswered s
  | ClickPrevious => isActive s && negb (currentExerciseIndex s =? 0)
  | ClickToggleMeaning => isActive s
  | ClickRetry => isActive s
  | ClickCheck =>
      isActive s && unanswered s
      && negb (String.eqb (userAnswer s) EmptyString)
  | ClickNext => isActive s && negb (unanswered s)
  end%bool.

(** The handler behind each control, with the closures of the render that
    is on screen (buttons and fields are bound anew in every render; for
    the arrow keys this is the listener of that render, the installed one
    being dealt with in [fire]). *)
Definition handler (ev : event) (s : state) : completion state :=
  match ev with
  | SelectFile shuffle file => handleFileChange shuffle file s
  | InputChange text => Normal (typeAnswer text s)
  | InputEnter => pressEnter s
  | ClickPrevious => Normal (prevExercise s)
  | ClickToggleMeaning => Normal (toggleMeaning s)
  | ClickRetry => Normal (resetExerciseState s)
  | ClickCheck => checkAnswer s
  | ClickNext => Normal (nextExercise s)
  | ClickStartAgain => Normal (restartExercises s)
  | WindowKeyDown k => Normal (handleKeyDown k s)
  end.

(** ** The [keydown] effect (lines 134-147)

    The effect has the dependency list [[currentExerciseIndex]]: the
    listener it installs calls the [nextExercise] and [prevExercise] of the
    render in which the cursor last changed (the first render, to begin
    with), and those read [currentExerciseIndex] and [exercises] of that
    render while their setters write the cells of the live state
    ([handleKeyDownIn]). *)

(** The mounted component: the live state and the render the installed
    listener was created in. *)
Record page : Type := mkPage { current : state; listener : state }.

Definition mount : page := mkPage initialState initialState.

(** A state change re-renders (the setter calls of one handler are
    applied together); the effect runs again only if the cursor differs
    from that of the previous render. *)
Definition rerender (p : page) (s' : state) : page :=
  mkPage s'
         (if currentExerciseIndex s' =? currentExerciseIndex (current p)
          then listener p else s').

(** One user event on the page.  Controls that are not offered do
    nothing; the arrow keys go through the installed listener; an
    exception in a handler (or a rejected [loadData]) leaves the state
    cells as they were. *)
Definition fire (ev : event) (p : page) : page :=
  if offered ev (current p) then
    match ev with
    | WindowKeyDown k =>
        rerender p (handleKeyDownIn (listener p) k (current p))
    | _ => match handler ev (current p) with
           | Normal s' => rerender p s'
           | Throw _ => p
           end
    end
  else p.

Definition play (evs : list event) (p : page) : page :=
  fold_left (fun q ev => fire ev q) evs p.

(* ================================================================== *)
(** * Further vocabulary                                              *)
(* ================================================================== *)

(** The score counts answers: no more right ones than answers. *)
Definition scoreOk (s : state) : Prop :=
  0 <= correct (stats s) <= total (stats s).

(** The cursor points into the exercise array, or is 0 on an empty one. *)
Definition cursorInRange (s : state) : Prop :=
  0 <= currentExerciseIndex s
  /\ (currentExerciseIndex s < Z.of_nat (List.length (exercises s))
      \/ currentExerciseIndex s = 0).

(** The listener's render and the live state have the same cursor, which
    is not negative, and the score counts answers. *)
Definition pageOk (p : page) : Prop :=
  currentExerciseIndex (listener p) = currentExerciseIndex (current p)
  /\ scoreOk (current p)
  /\ 0 <= currentExerciseIndex (current p).

(** The cells 0 and 2 to 8 of two rows agree. *)
Definition sameReadCells (row row' : list value) : Prop :=
  forall i, In i [0; 2; 3; 4; 5; 6; 7; 8]%nat -> index row i = index row' i.

(** [pieces.join(sep)] *)
Fixpoint join (sep : string) (pieces : list string) : string :=
  match pieces with
  | [] => EmptyString
  | [piece] => piece
  | piece :: rest => (piece ++ sep ++ join sep rest)%string
  end.

(** The answer as [checkAnswer] compares it. *)
Definition normalize (s : string) : string := trim (toLowerCase s).

(** A string of white space only. *)
Fixpoint allWhite (s : string) : bool :=
  match s with
  | EmptyString => true
  | String c rest => (is_white_space c && allWhite rest)%bool
  end.

(** A string that does not begin with white space. *)
Definition cleanStart (s : string) : Prop := trimStart s = s.

(** Two sheets for a second upload. *)
Definition sheetOfThree : list (list value) :=
  [headerRow; textRow 1 "dog" "ex" "q1"; textRow 2 "cat" "ex" "q2";
   textRow 3 "bird" "ex" "q3"].

Definition sheetOfOne : list (list value) :=
  [headerRow; textRow 4 "tree" "ex" "q4"].

(** An event of a button, a field or the file input: anything but a key
    on the window. *)
Definition isControl (ev : event) : bool :=
  match ev with
  | WindowKeyDown _ => false
  | _ => true
  end.

(** The page after the first upload of three exercises. *)
Definition uploadedPage : page :=
  play [SelectFile (fun exs => exs) (Some sheetOfThree)] mount.

(** The same after a checked answer and Next Exercise: cursor 1, with the
    listener of that render. *)
Definition secondExercisePage : page :=
  play [InputChange "dog"; ClickCheck; ClickNext] uploadedPage.

(** The same after two right arrows: cursor 2, review on display. *)
Definition reviewPage : page :=
  play [WindowKeyDown ArrowRight; WindowKeyDown ArrowRight] secondExercisePage.

(* ================================================================== *)
(** * Facts about the string builtins                                 *)
(* ================================================================== *)

Section SplitAtBreaks.

Lemma prefix_CRLF_inv (s : string) :
  String.prefix CRLF s = true ->
  exists r, s = String (ascii_of_nat 13) (String (ascii_of_nat 10) r).
Proof.
  intros H. apply String.prefix_correct in H.
  destruct s as [|a [|b r]]; try discriminate H.
  exists r. cbn in H.
  assert (E : substring 0 0 r = EmptyString) by now destruct r.
  rewrite E in H. now injection H as -> ->.
Qed.

Lemma split_from_step (c : ascii) (rest : string) :
  split_from CRLF 0 (String c rest) =
  if String.prefix CRLF (String c rest)
  then EmptyString :: split_from CRLF 1 rest
  else match split_from CRLF 0 rest with
       | piece :: pieces => String c piece :: pieces
       | [] => [String c EmptyString]
       end.
Proof. reflexivity. Qed.

Lemma includes_step (c : ascii) (rest : string) :
  includes (String c rest) CRLF =
  (String.prefix CRLF (String c rest) || includes rest CRLF)%bool.
Proof. reflexivity. Qed.

Lemma afterFirstBreak_step (c : ascii) (rest : string) :
  afterFirstBreak (String c rest) =
  if String.prefix CRLF (String c rest)
  then Some (dropChars 2 (String c rest))
  else afterFirstBreak rest.
Proof. reflexivity. Qed.

Lemma beforeFirstBreak_step (c : ascii) (rest : string) :
  beforeFirstBreak (String c rest) =
  if String.prefix CRLF (String c rest) then EmptyString
  else String c (beforeFirstBreak rest).
Proof. reflexivity. Qed.

(** [split] cuts at the first CRLF and goes on with what follows it. *)
Lemma split_unfold (s : string) :
  split s CRLF =
  match afterFirstBreak s with
  | None => [s]
  | Some r => beforeFirstBreak s :: split r CRLF
  end.
Proof.
  unfold split. induction s as [|c rest IH]; [reflexivity|].
  rewrite split_from_step, afterFirstBreak_step, beforeFirstBreak_step.
  destruct (String.prefix CRLF (String c rest)) eqn:E.
  - apply prefix_CRLF_inv in E as [r E]. injection E as -> ->. reflexivity.
  - rewrite IH. now destruct (afterFirstBreak rest).
Qed.

Lemma includes_afterFirstBreak (s : string) :
  includes s CRLF =
  match afterFirstBreak s with Some _ => true | None => false end.
Proof.
  induction s as [|c rest IH]; [reflexivity|].
  rewrite includes_step, afterFirstBreak_step.
  now destruct (String.prefix CRLF (String c rest)).
Qed.

Lemma beforeFirstBreak_none (s : string) :
  afterFirstBreak s = None -> beforeFirstBreak s = s.
Proof.
  induction s as [|c rest IH]; [reflexivity|].
  rewrite afterFirstBreak_step, beforeFirstBreak_step.
  destruct (String.prefix CRLF (String c rest)); [discriminate|].
  intros H. now rewrite IH.
Qed.

Lemma split_head (s : string) :
  nth_error (split s CRLF) 0 = Some (beforeFirstBreak s).
Proof.
  rewrite split_unfold. destruct (afterFirstBreak s) eqn:E; simpl.
  - reflexivity.
  - now rewrite beforeFirstBreak_none.
Qed.

(** [s.split('\r\n')[1]] when [s] has a CRLF. *)
Lemma split_second (s r : string) :
  afterFirstBreak s = Some r ->
  nth_error (split s CRLF) 1 = Some (beforeFirstBreak r).
Proof.
  intros E. rewrite split_unfold, E. simpl. apply split_head.
Qed.

End SplitAtBreaks.

(* ================================================================== *)
(** * The row parser                                                  *)
(* ================================================================== *)

Section RowParser.

Lemma or_string (t : string) (v : value) :
  or (VString t) v = if String.eqb t EmptyString then v else VString t.
Proof. unfold or; simpl. now destruct (String.eqb t EmptyString). Qed.

Lemma or_falsy (a v : value) : truthy a = false -> or a v = v.
Proof. unfold or. now intros ->. Qed.

(** What lines 30-33 leave in [sentence] for a text question. *)
Lemma questionSentence_text (row : list value) (q : string) :
  index row 8 = VString q ->
  questionSentence row =
  Normal (VString (match afterFirstBreak q with
                   | None => q
                   | Some r => beforeFirstBreak r
                   end)).
Proof.
  intros Hq. unfold questionSentence. rewrite Hq.
  unfold truthy, call_includes, call_split_at, bind.
  destruct (String.eqb q EmptyString) eqn:Eq; cbn [negb].
  - apply String.eqb_eq in Eq. now subst q.
  - rewrite includes_afterFirstBreak.
    destruct (afterFirstBreak q) as [r|] eqn:E; [|reflexivity].
    now rewrite (split_second q r E).
Qed.

Lemma questionSentence_falsy (row : list value) :
  truthy (index row 8) = false -> questionSentence row = Normal (index row 8).
Proof. unfold questionSentence. now intros ->. Qed.

Lemma questionSentence_total (row : list value) :
  questionIsText row = true -> exists v, questionSentence row = Normal v.
Proof.
  unfold questionIsText. intros H.
  destruct (index row 8) as [|q|n|b] eqn:E.
  - exists VUndefined. rewrite questionSentence_falsy; now rewrite E.
  - rewrite (questionSentence_text row q E). eauto.
  - exists (VNumber n). apply negb_true_iff in H.
    rewrite questionSentence_falsy; now rewrite E.
  - exists (VBoolean b). apply negb_true_iff in H.
    rewrite questionSentence_falsy; now rewrite E.
Qed.

Lemma exerciseOfRow_total (row : list value) :
  questionIsText row = true -> exists e, exerciseOfRow row = Normal e.
Proof.
  intros H. destruct (questionSentence_total row H) as [v Hv].
  unfold exerciseOfRow. rewrite Hv. simpl. eauto.
Qed.

(** The loop appends, in order, the exercise of every row it does not
    skip. *)
Lemma processRows_text (rows : list (list value)) :
  forallb questionIsText rows = true ->
  forall exercisesData,
  exists added,
    processRows rows exercisesData = Normal (exercisesData ++ added)
    /\ Forall2 (fun row e => exerciseOfRow row = Normal e)
               (filter nonEmptyRow rows) added.
Proof.
  induction rows as [|row rest IH]; simpl; intros H acc.
  - exists []. rewrite app_nil_r. split; [reflexivity|constructor].
  - apply andb_true_iff in H as [Hrow Hrest].
    unfold nonEmptyRow.
    destruct (Nat.eqb (List.length row) 0); simpl.
    + apply IH, Hrest.
    + destruct (exerciseOfRow_total row Hrow) as [e He].
      rewrite He. simpl.
      destruct (IH Hrest (acc ++ [e])) as [added [Hp Hf]].
      exists (e :: added). split.
      * rewrite Hp, <- app_assoc. reflexivity.
      * now constructor.
Qed.

(** The side condition is sharp: any other question cell aborts the
    load. *)
Lemma exerciseOfRow_throws (row : list value) :
  questionIsText row = false -> exerciseOfRow row = Throw TypeError.
Proof.
  unfold questionIsText, exerciseOfRow, questionSentence.
  destruct (index row 8) as [|q|n|b]; try discriminate;
    intros H; apply negb_false_iff in H; now rewrite H.
Qed.

Lemma processRows_throws (rows : list (list value)) :
  forallb questionIsText rows = false ->
  forall exercisesData, processRows rows exercisesData = Throw TypeError.
Proof.
  induction rows as [|row rest IH]; simpl; [discriminate|].
  intros H acc. destruct (questionIsText row) eqn:Hrow; simpl in H.
  - destruct (Nat.eqb (List.length row) 0); [now apply IH|].
    destruct (exerciseOfRow_total row Hrow) as [e ->]. simpl. now apply IH.
  - destruct row as [|c row']; [discriminate Hrow|]. simpl.
    now rewrite (exerciseOfRow_throws _ Hrow).
Qed.

Lemma parseRows_throws (rawData : list (list value)) :
  forallb questionIsText (skipn 1 rawData) = false ->
  parseRows rawData = Throw TypeError.
Proof. intros H. now apply processRows_throws. Qed.

End RowParser.

(** C4, as the code has it: for a row whose question cell is text or
    falsy, the exercise is built, and its sentence is (i) the example
    cell when the question cell is falsy, (ii) the question text itself
    when it is non-empty and has no CRLF, (iii) when it has a CRLF, the
    text between the first CRLF and the next one (the whole remainder
    only if no further CRLF follows), replaced by the example cell when
    that text is empty. *)
Theorem sentence_derivation (row : list value) :
  questionIsText row = true ->
  exists e,
    exerciseOfRow row = Normal e
    /\ (truthy (index row 8) = false -> sentence e = index row 4)
    /\ (forall q, index row 8 = VString q ->
          (afterFirstBreak q = None -> q <> EmptyString ->
             sentence e = VString q)
          /\ (forall r, afterFirstBreak q = Some r ->
                sentence e =
                  (if String.eqb (beforeFirstBreak r) EmptyString
                   then index row 4
                   else VString (beforeFirstBreak r))
                /\ (afterFirstBreak r = None -> beforeFirstBreak r = r))).
Proof.
  intros Htext. destruct (exerciseOfRow_total row Htext) as [e He].
  exists e. split; [exact He|]. unfold exerciseOfRow in He. split.
  - intros Hf. rewrite (questionSentence_falsy row Hf) in He. simpl in He.
    injection He as <-. simpl. now apply or_falsy.
  - intros q Hq. rewrite (questionSentence_text row q Hq) in He.
    simpl in He. injection He as <-. simpl. rewrite or_string. split.
    + intros -> Hne. apply String.eqb_neq in Hne. now rewrite Hne.
    + intros r ->. split; [reflexivity|apply beforeFirstBreak_none].
Qed.

Lemma sentence_derivation_witness :
  exists e,
    exerciseOfRow (textRow 1 "apple" "An apple a day." twoBreaks) = Normal e
    /\ sentence e = VString "She ate an _____.".
Proof.
  destruct (sentence_derivation
              (textRow 1 "apple" "An apple a day." twoBreaks) eq_refl)
    as [e [He [_ Hq]]].
  exists e. split; [exact He|].
  destruct (Hq twoBreaks eq_refl) as [_ Hr].
  exact (proj1 (Hr _ eq_refl)).
Defined.

(** C4 as worded fails: with two line breaks in the question the sentence
    is not the text after the first one. *)
Lemma sentence_is_not_rest_after_first_break :
  let row := textRow 1 "apple" "An apple a day." twoBreaks in
  index row 8 = VString twoBreaks
  /\ afterFirstBreak twoBreaks
     = Some ("She ate an _____." ++ CRLF ++ "(fruit)")%string
  /\ exists e, exerciseOfRow row = Normal e
               /\ sentence e = VString "She ate an _____."
               /\ sentence e
                  <> VString ("She ate an _____." ++ CRLF ++ "(fruit)")%string.
Proof.
  cbv zeta. split; [reflexivity|]. split; [reflexivity|].
  eexists. split; [reflexivity|]. split; [reflexivity|]. discriminate.
Qed.

(** C7, as the code has it: when every data row has a question cell that
    is text or falsy, the parser skips the header row and every row with
    zero cells and yields exactly one exercise per remaining row, in input
    order. *)
Theorem parseRows_one_per_row (rawData : list (list value)) :
  forallb questionIsText (skipn 1 rawData) = true ->
  exists exs,
    parseRows rawData = Normal exs
    /\ Forall2 (fun row e => exerciseOfRow row = Normal e)
               (filter nonEmptyRow (skipn 1 rawData)) exs
    /\ List.length exs = List.length (filter nonEmptyRow (skipn 1 rawData)).
Proof.
  intros H. unfold parseRows.
  destruct (processRows_text (skipn 1 rawData) H []) as [exs [Hp Hf]].
  exists exs. repeat split; auto.
  symmetry. eapply Forall2_length, Hf.
Qed.

Lemma parseRows_one_per_row_witness :
  exists exs,
    parseRows [headerRow; textRow 1 "dog" "ex" "q1"; []; shortRow;
               textRow 2 "cat" "ex" "q2"] = Normal exs
    /\ map id exs = [VNumber 1; VNumber 7; VNumber 2].
Proof.
  destruct (parseRows_one_per_row
              [headerRow; textRow 1 "dog" "ex" "q1"; []; shortRow;
               textRow 2 "cat" "ex" "q2"] eq_refl) as [exs [Hp _]].
  exists exs. split; [exact Hp|].
  vm_compute in Hp. injection Hp as <-. reflexivity.
Defined.

(** C7 as worded fails: a numeric question cell makes the parser throw, so
    no exercise is produced for any row. *)
Lemma parseRows_numeric_question_throws :
  parseRows [headerRow; textRow 1 "dog" "ex" "q1"; numericQuestionRow]
  = Throw TypeError
  /\ ~ exists exs,
        parseRows [headerRow; textRow 1 "dog" "ex" "q1"; numericQuestionRow]
        = Normal exs.
Proof.
  split; [reflexivity|]. intros [exs H]. discriminate H.
Qed.

(* ================================================================== *)
(** * The answer check                                                *)
(* ================================================================== *)

(** C1, as the code has it: when the word of the current exercise is a
    string, [checkAnswer] completes, adds exactly 1 to [total], and adds 1
    to [correct] exactly when the lower-cased, trimmed answer equals the
    lower-cased, trimmed word; otherwise [correct] is unchanged.  This
    holds whatever functions the builtins [toLowerCase] and [trim] are,
    so for every text, not only ASCII ones. *)
Theorem checkAnswer_scores
    (toLowerCase trim : string -> string) (s : state) (w : string) :
  word (currentExercise s) = VString w ->
  exists s',
    checkAnswerWith toLowerCase trim s = Normal s'
    /\ total (stats s') = total (stats s) + 1
    /\ (correct (stats s') = correct (stats s) + 1
        <-> trim (toLowerCase (userAnswer s)) = trim (toLowerCase w))
    /\ (trim (toLowerCase (userAnswer s)) <> trim (toLowerCase w)
        -> correct (stats s') = correct (stats s))
    /\ isCorrect s'
       = Some (String.eqb (trim (toLowerCase w))
                          (trim (toLowerCase (userAnswer s)))).
Proof.
  intros Hw. unfold checkAnswerWith. rewrite Hw.
  cbn [call_string_method bind].
  eexists. split; [reflexivity|]. cbn.
  destruct (String.eqb_spec (trim (toLowerCase w))
                            (trim (toLowerCase (userAnswer s)))) as [E|E].
  - repeat split; auto; try lia. intros N. now elim N.
  - repeat split; auto; try lia. intros N. now elim E.
Qed.

(** Word [Apple], answer [  apple  ]: ASCII texts, on which the builtins
    are [Js.toLowerCase] and [Js.trim]. *)
Lemma checkAnswer_scores_witness :
  exists s',
    checkAnswer (typeAnswer "  apple  " (loaded [anExercise (VString "Apple")]))
    = Normal s'
    /\ total (stats s') = 1 /\ correct (stats s') = 1.
Proof.
  destruct (checkAnswer_scores Js.toLowerCase Js.trim
              (typeAnswer "  apple  " (loaded [anExercise (VString "Apple")]))
              "Apple" eq_refl) as [s' [H [Ht [[_ Hc] _]]]].
  exists s'. split; [exact H|]. split; [exact Ht|]. exact (Hc eq_refl).
Defined.

(** C1 as worded fails: with no exercise under the cursor the check
    throws, whatever the builtins are, and the score is not touched. *)
Lemma checkAnswer_empty_set_throws :
  let s := typeAnswer "apple" (loaded []) in
  pressEnter s = Throw TypeError
  /\ checkAnswer s = Throw TypeError
  /\ (forall toLowerCase trim : string -> string,
        checkAnswerWith toLowerCase trim s = Throw TypeError)
  /\ ~ exists s', checkAnswer s = Normal s'
                  /\ total (stats s') = total (stats s) + 1.
Proof.
  cbv zeta. split; [reflexivity|]. split; [reflexivity|].
  split; [reflexivity|].
  intros [s' [H _]]. discriminate H.
Qed.

(** C3 does not hold of the code: the exercise parsed from a row without a
    word cell has an undefined word, and checking any answer against it
    throws [TypeError] instead of marking the answer incorrect. *)
Theorem checkAnswer_undefined_word_throws :
  exists s0,
    loadData (fun exs => exs) [headerRow; shortRow] initialState = Normal s0
    /\ word (currentExercise s0) = VUndefined
    /\ checkAnswer (typeAnswer "seven" s0) = Throw TypeError
    /\ pressEnter (typeAnswer "seven" s0) = Throw TypeError.
Proof. eexists. repeat split. Qed.

(** An empty word is not always incorrect either: a blank answer
    matches it. *)
Example checkAnswer_empty_word_blank_answer :
  exists s',
    checkAnswer (typeAnswer "  " (loaded [anExercise (VString EmptyString)]))
    = Normal s'
    /\ isCorrect s' = Some true /\ stats s' = mkScore 1 1.
Proof. eexists. repeat split. Qed.

(* ================================================================== *)
(** * The loader                                                      *)
(* ================================================================== *)

(** What a successful [loadData] writes, and what it leaves alone. *)
Lemma loadData_effect (shuffle : list exercise -> list exercise)
    (rawData : list (list value)) (s s' : state) :
  loadData shuffle rawData s = Normal s' ->
  exists exs,
    parseRows rawData = Normal exs
    /\ s' = mkState (shuffle exs) 0 (userAnswer s) (feedback s) (isCorrect s)
                    (showMeaning s) false (stats s) (exerciseMode s).
Proof.
  unfold loadData. destruct (parseRows rawData) as [exs|e]; simpl.
  - intros H. injection H as <-. now exists exs.
  - discriminate.
Qed.

(** C2 does not hold of the code: loading a new sheet over a finished
    pass replaces the exercises and resets the cursor, but the score, the
    attempt state and the review mode all carry over. *)
Theorem loadData_keeps_score_and_mode :
  forall shuffle : list exercise -> list exercise,
  exists s',
    loadData shuffle [headerRow; textRow 1 "tree" "ex" "A _____ grows."]
             finishedSession = Normal s'
    /\ exercises s' = shuffle [mkExercise (VNumber 1) (VString "tree")
                                 (VString "hint") (VString "A _____ grows.")
                                 (VString "_____") (VString "meaning")
                                 (VString "pron")]
    /\ currentExerciseIndex s' = 0
    /\ stats s' = mkScore 1 2
    /\ userAnswer s' = "bird"%string
    /\ isCorrect s' = Some true
    /\ showMeaning s' = true
    /\ exerciseMode s' = review
    /\ sessionMode s' = Review.
Proof. intros shuffle. eexists. repeat split. Qed.

(* ================================================================== *)
(** * Navigation and retry                                            *)
(* ================================================================== *)

Section Navigation.

Lemma resetExerciseState_frame (s : state) :
  sameOutsideAttempt s (resetExerciseState s).
Proof. repeat split. Qed.

Lemma resetExerciseState_resets (s : state) :
  attemptIsReset (resetExerciseState s).
Proof. repeat split. Qed.

(** Neither arrow key touches the exercises, the score or [loading], and
    neither leaves ['review']. *)
Lemma handleKeyDown_keeps (k : key) (s : state) :
  exercises (handleKeyDown k s) = exercises s
  /\ stats (handleKeyDown k s) = stats s
  /\ loading (handleKeyDown k s) = loading s
  /\ (exerciseMode s = review -> exerciseMode (handleKeyDown k s) = review).
Proof.
  destruct k; simpl; unfold nextExercise, prevExercise, nextExerciseIn, prevExerciseIn.
  - destruct (_ <? _); repeat split; auto.
  - destruct (_ >? _); repeat split; auto.
  - repeat split; auto.
Qed.

Lemma handleKeys_keeps (ks : list key) (s : state) :
  exercises (handleKeys ks s) = exercises s
  /\ stats (handleKeys ks s) = stats s
  /\ loading (handleKeys ks s) = loading s
  /\ (exerciseMode s = review -> exerciseMode (handleKeys ks s) = review).
Proof.
  unfold handleKeys. revert s.
  induction ks as [|k ks IH]; intros s; simpl; [repeat split; auto|].
  destruct (IH (handleKeyDown k s)) as [He [Hs [Hl Hm]]].
  destruct (handleKeyDown_keeps k s) as [He' [Hs' [Hl' Hm']]].
  rewrite He, Hs, Hl. repeat split; auto.
Qed.

Lemma sessionMode_review (s : state) :
  sessionMode s = Review <-> loading s = false /\ exerciseMode s = review.
Proof.
  unfold sessionMode.
  destruct (loading s), (exerciseMode s); split;
    try discriminate; try tauto; intros [? ?]; discriminate.
Qed.

Lemma sessionMode_active (s : state) :
  sessionMode s = Active <-> loading s = false /\ exerciseMode s = normal.
Proof.
  unfold sessionMode.
  destruct (loading s), (exerciseMode s); split;
    try discriminate; try tauto; intros [? ?]; discriminate.
Qed.

(** Restart is the way out of review: it goes back to the loading
    screen with an empty set, a zero score and a fresh attempt state. *)
Lemma restartExercises_effect (s : state) :
  restartExercises s = initialState.
Proof. reflexivity. Qed.

Lemma toggleMeaning_frame (s : state) :
  showMeaning (toggleMeaning s) = negb (showMeaning s)
  /\ isCorrect (toggleMeaning s) = isCorrect s
  /\ stats (toggleMeaning s) = stats s
  /\ currentExerciseIndex (toggleMeaning s) = currentExerciseIndex s.
Proof. repeat split. Qed.

End Navigation.

(** The [nextExercise] of the render on screen (the Next Exercise
    button), in active mode with a non-empty exercise set: at the last
    index it switches to review and changes nothing else; before the last
    index it adds one to the cursor and resets the attempt state, leaving
    score, set and mode as they are. *)
Lemma nextExercise_on_screen (s : state) :
  sessionMode s = Active ->
  exercises s <> [] ->
  (currentExerciseIndex s = Z.of_nat (List.length (exercises s)) - 1 ->
   sessionMode (nextExercise s) = Review
   /\ currentExerciseIndex (nextExercise s) = currentExerciseIndex s
   /\ stats (nextExercise s) = stats s
   /\ nextExercise s = setExerciseMode review s)
  /\ (currentExerciseIndex s < Z.of_nat (List.length (exercises s)) - 1 ->
      currentExerciseIndex (nextExercise s) = currentExerciseIndex s + 1
      /\ attemptIsReset (nextExercise s)
      /\ stats (nextExercise s) = stats s
      /\ exercises (nextExercise s) = exercises s
      /\ sessionMode (nextExercise s) = Active).
Proof.
  intros Hact _. apply sessionMode_active in Hact as [Hl Hm].
  unfold nextExercise, nextExerciseIn. split; intros H.
  - destruct (Z.ltb_spec (currentExerciseIndex s)
                (Z.of_nat (List.length (exercises s)) - 1)); [lia|].
    repeat split. unfold sessionMode; simpl. now rewrite Hl.
  - destruct (Z.ltb_spec (currentExerciseIndex s)
                (Z.of_nat (List.length (exercises s)) - 1)); [|lia].
    repeat split. unfold sessionMode; simpl. now rewrite Hl, Hm.
Qed.

(** C9: retry ([resetExerciseState]) empties [userAnswer] and the feedback
    text, sets [isCorrect] to unknown and hides the meaning, and leaves
    cursor, score, exercise set and session mode as they are; this holds
    in every state, the active ones included. *)
Theorem resetExerciseState_retry (s : state) :
  userAnswer (resetExerciseState s) = EmptyString
  /\ isCorrect (resetExerciseState s) = None
  /\ feedback (resetExerciseState s) = EmptyString
  /\ showMeaning (resetExerciseState s) = false
  /\ currentExerciseIndex (resetExerciseState s) = currentExerciseIndex s
  /\ stats (resetExerciseState s) = stats s
  /\ exercises (resetExerciseState s) = exercises s
  /\ sessionMode (resetExerciseState s) = sessionMode s.
Proof. repeat split. Qed.

(** C10: with the cursor outside the exercise array (an empty array
    included) the current exercise is the empty object, so each of its
    fields, the rendered ones among them, reads [undefined]; the lookup
    is total and raises nothing. *)
Theorem currentExercise_out_of_range (s : state) :
  cursorOutOfRange s ->
  currentExercise s = emptyObject
  /\ word (currentExercise s) = VUndefined
  /\ hint (currentExercise s) = VUndefined
  /\ sentence (currentExercise s) = VUndefined
  /\ meaning (currentExercise s) = VUndefined
  /\ pronunciation (currentExercise s) = VUndefined
  /\ blankedWord (currentExercise s) = VUndefined.
Proof.
  intros H.
  assert (E : currentExercise s = emptyObject).
  { unfold currentExercise, at_index.
    destruct (Z.ltb_spec (currentExerciseIndex s) 0); [reflexivity|].
    destruct H as [H|H]; [lia|].
    destruct (nth_error (exercises s) (Z.to_nat (currentExerciseIndex s)))
      eqn:N; [|reflexivity].
    assert (nth_error (exercises s) (Z.to_nat (currentExerciseIndex s))
            <> None) as L by congruence.
    apply nth_error_Some in L. lia. }
  rewrite E. repeat split.
Qed.

Lemma currentExercise_out_of_range_witness :
  currentExercise (loaded []) = emptyObject
  /\ currentExercise (setCurrentExerciseIndex 3 (loaded dogCatBird))
     = emptyObject.
Proof.
  split.
  - apply (currentExercise_out_of_range (loaded [])). right. simpl. lia.
  - apply (currentExercise_out_of_range
             (setCurrentExerciseIndex 3 (loaded dogCatBird))).
    right. simpl. lia.
Defined.

(* ================================================================== *)
(** * The percentage displays                                         *)
(* ================================================================== *)

(** The active score line is guarded. *)
Lemma activePercentage_guard (s : state) :
  total (stats s) <= 0 -> activePercentage s = RInt 0.
Proof.
  intros H. unfold activePercentage.
  destruct (Z.gtb_spec (total (stats s)) 0); [lia|reflexivity].
Qed.

Example percentage_half : percentage (mkScore 1 2) = RInt 50.
Proof. reflexivity. Qed.

(** The quotient is rounded to a double before it is scaled. *)
Example percentage_29_of_200 : percentage (mkScore 29 200) = RInt 14.
Proof. reflexivity. Qed.

(** C6 does not hold of the code: skipping through all three exercises
    with the right arrow reaches the review screen with nothing answered;
    there the percentage is [Math.round(0 / 0 * 100)], which is NaN, while
    the guarded active score line shows 0 for the same score. *)
Theorem reviewPercentage_nothing_answered :
  let s := handleKeys [ArrowRight; ArrowRight; ArrowRight] (loaded dogCatBird) in
  sessionMode s = Review
  /\ stats s = mkScore 0 0
  /\ reviewPercentage s = RNaN
  /\ activePercentage s = RInt 0.
Proof. repeat split. Qed.

(** The scenario of the specification: wrong answer, next, [CAT ], next,
    next ends in review with score 1 of 2, shown as 50%. *)
Example scenario_dog_cat_bird :
  (s1 <- checkAnswer (typeAnswer "cow" (loaded dogCatBird)) ;;
   s2 <- checkAnswer (typeAnswer "CAT " (nextExercise s1)) ;;
   let s3 := nextExercise (nextExercise s2) in
   Normal (stats s1, stats s2, currentExerciseIndex (nextExercise s2),
           sessionMode s3, stats s3, reviewPercentage s3))
  = Normal (mkScore 0 1, mkScore 1 2, 2, Review, mkScore 1 2, RInt 50).
Proof. vm_compute. reflexivity. Qed.

(* ================================================================== *)
(** * More on the row parser                                          *)
(* ================================================================== *)

Section RowParserMore.

Lemma processRows_skips_blank (rows : list (list value)) :
  forall exercisesData,
    processRows rows exercisesData
    = processRows (filter nonEmptyRow rows) exercisesData.
Proof.
  induction rows as [|row rest IH]; intros acc; [reflexivity|].
  simpl. unfold nonEmptyRow.
  destruct (Nat.eqb (List.length row) 0) eqn:E; simpl.
  - apply IH.
  - rewrite E. destruct (exerciseOfRow row); simpl; [apply IH|reflexivity].
Qed.

Lemma beforeFirstBreak_head (s : string) (a : ascii) (t : string) :
  beforeFirstBreak s = String a t -> exists t', s = String a t'.
Proof.
  destruct s as [|c rest]; [discriminate|].
  rewrite beforeFirstBreak_step.
  destruct (String.prefix CRLF (String c rest)); [discriminate|].
  intros H. injection H as -> _. now exists rest.
Qed.

Lemma prefix_CRLF_head (c a : ascii) (t t' : string) :
  String.prefix CRLF (String c (String a t)) = true ->
  String.prefix CRLF (String c (String a t')) = true.
Proof.
  intros H. apply prefix_CRLF_inv in H as [r H].
  injection H as -> -> _. apply String.prefix_correct. cbn.
  now destruct t'.
Qed.

(** A piece cut off at the first CRLF holds no CRLF itself. *)
Lemma beforeFirstBreak_clean (s : string) :
  afterFirstBreak (beforeFirstBreak s) = None.
Proof.
  induction s as [|c rest IH]; [reflexivity|].
  rewrite beforeFirstBreak_step.
  destruct (String.prefix CRLF (String c rest)) eqn:E; [reflexivity|].
  rewrite afterFirstBreak_step.
  destruct (String.prefix CRLF (String c (beforeFirstBreak rest))) eqn:P;
    [|exact IH].
  exfalso. destruct (beforeFirstBreak rest) as [|a t] eqn:B.
  - apply prefix_CRLF_inv in P as [r P]. discriminate P.
  - apply beforeFirstBreak_head in B as [t' ->].
    rewrite (prefix_CRLF_head c a t t' P) in E. discriminate E.
Qed.

Lemma break_decompose (s r : string) :
  afterFirstBreak s = Some r ->
  s = (beforeFirstBreak s ++ CRLF ++ r)%string
  /\ (String.length r < String.length s)%nat.
Proof.
  revert r. induction s as [|c rest IH]; intros r; [discriminate|].
  rewrite afterFirstBreak_step, beforeFirstBreak_step.
  destruct (String.prefix CRLF (String c rest)) eqn:E.
  - apply prefix_CRLF_inv in E as [t E]. injection E as -> ->.
    intros H. injection H as <-. split; [reflexivity|simpl; lia].
  - intros H. destruct (IH r H) as [Hs Hl]. split.
    + change (String c rest
              = String c (beforeFirstBreak rest ++ CRLF ++ r)%string).
      now rewrite <- Hs.
    + simpl. lia.
Qed.

Lemma split_not_nil (s : string) : split s CRLF <> [].
Proof. rewrite split_unfold. now destruct (afterFirstBreak s). Qed.

Lemma join_cons (piece : string) (rest : list string) :
  rest <> [] ->
  join CRLF (piece :: rest) = (piece ++ CRLF ++ join CRLF rest)%string.
Proof. destruct rest; [congruence|reflexivity]. Qed.

Lemma split_pieces_bounded (n : nat) :
  forall s, (String.length s <= n)%nat ->
    join CRLF (split s CRLF) = s
    /\ Forall (fun piece => includes piece CRLF = false) (split s CRLF).
Proof.
  induction n as [|n IH]; intros s Hn.
  - destruct s; [|simpl in Hn; lia]. split; [reflexivity|].
    repeat constructor.
  - rewrite split_unfold. destruct (afterFirstBreak s) as [r|] eqn:E.
    + destruct (break_decompose s r E) as [Hs Hl].
      destruct (IH r ltac:(lia)) as [Hj Hf]. split.
      * rewrite join_cons by apply split_not_nil. now rewrite Hj, <- Hs.
      * constructor; [|exact Hf].
        now rewrite includes_afterFirstBreak, beforeFirstBreak_clean.
    + split; [reflexivity|]. constructor; [|constructor].
      now rewrite includes_afterFirstBreak, E.
Qed.

End RowParserMore.

(** X1: The split at CRLF of line 32 loses nothing and cuts at every CRLF:
    joining the pieces with CRLF gives the text back, and no piece
    includes CRLF. *)
Theorem split_CRLF_round_trip (s : string) :
  join CRLF (split s CRLF) = s
  /\ Forall (fun piece => includes piece CRLF = false) (split s CRLF).
Proof. apply (split_pieces_bounded (String.length s)). lia. Qed.

(** X2: The parsed result, exception included, depends on the sheet only
    through its non-empty rows after the first: the header's content and
    blank rows anywhere make no difference. *)
Theorem parseRows_data_rows_only (sheet sheet' : list (list value)) :
  filter nonEmptyRow (skipn 1 sheet) = filter nonEmptyRow (skipn 1 sheet') ->
  parseRows sheet = parseRows sheet'.
Proof.
  intros H. unfold parseRows.
  rewrite (processRows_skips_blank (skipn 1 sheet)).
  rewrite (processRows_skips_blank (skipn 1 sheet')).
  now rewrite H.
Qed.

Lemma parseRows_data_rows_only_witness :
  parseRows [headerRow; textRow 1 "dog" "ex" "q1"; []; numericQuestionRow]
  = parseRows [[]; []; textRow 1 "dog" "ex" "q1"; numericQuestionRow; []].
Proof. apply parseRows_data_rows_only. reflexivity. Defined.

(** X3: Parsing is all or nothing: it throws exactly when some data row has a
    question cell that is truthy and not text, however many good rows
    precede it. *)
Theorem parseRows_throws_iff (rawData : list (list value)) :
  parseRows rawData = Throw TypeError
  <-> forallb questionIsText (skipn 1 rawData) = false.
Proof.
  split; [|apply parseRows_throws].
  intros H. destruct (forallb questionIsText (skipn 1 rawData)) eqn:E;
    [|reflexivity].
  destruct (processRows_text (skipn 1 rawData) E []) as [exs [Hp _]].
  unfold parseRows in H. rewrite Hp in H. discriminate H.
Qed.

(** X4: Only the cells 0 and 2 to 8 of a row are read: rows that agree there
    give the same exercise (or the same exception), whatever column 1 and
    the columns from 9 on hold. *)
Theorem exerciseOfRow_read_cells (row row' : list value) :
  sameReadCells row row' -> exerciseOfRow row = exerciseOfRow row'.
Proof.
  intros H. unfold exerciseOfRow, questionSentence.
  rewrite !(H 0%nat), !(H 2%nat), !(H 3%nat), !(H 4%nat), !(H 5%nat),
          !(H 6%nat), !(H 7%nat), !(H 8%nat) by (simpl; tauto).
  reflexivity.
Qed.

Lemma exerciseOfRow_read_cells_witness :
  exerciseOfRow (textRow 1 "dog" "ex" "q1")
  = exerciseOfRow [VNumber 1; VString "noun"; VString "pron";
                   VString "meaning"; VString "ex"; VString "dog";
                   VString "_____"; VString "hint"; VString "q1";
                   VString "a remark"; VNumber 5].
Proof.
  apply exerciseOfRow_read_cells.
  intros i Hi. simpl in Hi.
  repeat (destruct Hi as [<-|Hi]; [reflexivity|]). contradiction.
Defined.

(** X5: The fallback works: the sentence of a parsed exercise is falsy only
    when it is the example cell, and is truthy whenever the example cell
    is. *)
Theorem sentence_fallback (row : list value) (e : exercise) :
  exerciseOfRow row = Normal e ->
  (truthy (sentence e) = false -> sentence e = index row 4)
  /\ (truthy (index row 4) = true -> truthy (sentence e) = true).
Proof.
  unfold exerciseOfRow. destruct (questionSentence row) as [v|]; simpl;
    [|discriminate].
  intros H. injection H as <-. simpl. unfold or.
  destruct (truthy v) eqn:T; split; intros H; congruence.
Qed.

Lemma sentence_fallback_witness :
  exists e,
    exerciseOfRow (textRow 1 "dog" "A dog barks." EmptyString) = Normal e
    /\ truthy (sentence e) = true.
Proof.
  eexists. split; [reflexivity|].
  apply (sentence_fallback (textRow 1 "dog" "A dog barks." EmptyString) _
           eq_refl).
  reflexivity.
Defined.

(** X6: When the question text includes a CRLF, the sentence of the exercise
    is either the example cell or a text without any CRLF. *)
Theorem sentence_has_no_break (row : list value) (q : string) :
  index row 8 = VString q ->
  includes q CRLF = true ->
  exists e,
    exerciseOfRow row = Normal e
    /\ (sentence e = index row 4
        \/ exists t, sentence e = VString t /\ includes t CRLF = false).
Proof.
  intros Hq Hi. unfold exerciseOfRow.
  rewrite (questionSentence_text row q Hq). simpl.
  eexists. split; [reflexivity|]. simpl. rewrite or_string.
  rewrite includes_afterFirstBreak in Hi.
  destruct (afterFirstBreak q) as [r|]; [|discriminate].
  destruct (String.eqb (beforeFirstBreak r) EmptyString); [now left|].
  right. eexists. split; [reflexivity|].
  now rewrite includes_afterFirstBreak, beforeFirstBreak_clean.
Qed.

Lemma sentence_has_no_break_witness :
  exists e,
    exerciseOfRow (textRow 1 "apple" "An apple a day." twoBreaks) = Normal e
    /\ (sentence e = VString "An apple a day."
        \/ exists t, sentence e = VString t /\ includes t CRLF = false).
Proof.
  exact (sentence_has_no_break
           (textRow 1 "apple" "An apple a day." twoBreaks) twoBreaks
           eq_refl eq_refl).
Defined.

(* ================================================================== *)
(** * Normal forms of answers                                         *)
(* ================================================================== *)

Section Normalize.

Ltac each_char c :=
  destruct c as [[] [] [] [] [] [] [] []]; reflexivity.

Lemma lower_char_idem (c : ascii) : lower_char (lower_char c) = lower_char c.
Proof. each_char c. Qed.

Lemma is_white_space_lower (c : ascii) :
  is_white_space (lower_char c) = is_white_space c.
Proof. each_char c. Qed.

Lemma toLowerCase_idem (s : string) :
  toLowerCase (toLowerCase s) = toLowerCase s.
Proof.
  induction s as [|c rest IH]; simpl; [reflexivity|].
  now rewrite lower_char_idem, IH.
Qed.

Lemma toLowerCase_app (s t : string) :
  toLowerCase (s ++ t) = (toLowerCase s ++ toLowerCase t)%string.
Proof. induction s as [|c rest IH]; simpl; [reflexivity|now rewrite IH]. Qed.

Lemma allWhite_lower (s : string) : allWhite (toLowerCase s) = allWhite s.
Proof.
  induction s as [|c rest IH]; simpl; [reflexivity|].
  now rewrite is_white_space_lower, IH.
Qed.

Lemma trimStart_lower (s : string) :
  trimStart (toLowerCase s) = toLowerCase (trimStart s).
Proof.
  induction s as [|c rest IH]; simpl; [reflexivity|].
  rewrite is_white_space_lower. now destruct (is_white_space c).
Qed.

Lemma trimEnd_lower (s : string) :
  trimEnd (toLowerCase s) = toLowerCase (trimEnd s).
Proof.
  induction s as [|c rest IH]; simpl; [reflexivity|].
  rewrite IH, is_white_space_lower.
  destruct (trimEnd rest); simpl; [|reflexivity].
  now destruct (is_white_space c).
Qed.

Lemma trim_lower (s : string) : trim (toLowerCase s) = toLowerCase (trim s).
Proof. unfold trim. now rewrite trimStart_lower, trimEnd_lower. Qed.

Lemma trimEnd_idem (s : string) : trimEnd (trimEnd s) = trimEnd s.
Proof.
  induction s as [|c rest IH]; simpl; [reflexivity|].
  destruct (trimEnd rest) as [|a kept] eqn:E.
  - destruct (is_white_space c) eqn:W; simpl; [reflexivity|now rewrite W].
  - simpl in *. now rewrite IH.
Qed.

Lemma trimStart_idem (s : string) : cleanStart (trimStart s).
Proof.
  unfold cleanStart. induction s as [|c rest IH]; simpl; [reflexivity|].
  destruct (is_white_space c) eqn:W; [exact IH|]. simpl. now rewrite W.
Qed.

Lemma trimEnd_cleanStart (s : string) : cleanStart s -> cleanStart (trimEnd s).
Proof.
  unfold cleanStart. destruct s as [|c rest]; simpl; [reflexivity|].
  destruct (is_white_space c) eqn:W.
  - intros H. assert (L : (String.length (trimStart rest)
                           <= String.length rest)%nat).
    { clear. induction rest as [|a t IH]; simpl; [lia|].
      destruct (is_white_space a); simpl; lia. }
    rewrite H in L. simpl in L. lia.
  - intros _. destruct (trimEnd rest); simpl; now rewrite W.
Qed.

Lemma trim_idem (s : string) : trim (trim s) = trim s.
Proof.
  unfold trim.
  rewrite (trimEnd_cleanStart (trimStart s) (trimStart_idem s)).
  apply trimEnd_idem.
Qed.

Lemma normalize_idem (s : string) : normalize (normalize s) = normalize s.
Proof.
  unfold normalize.
  rewrite (trim_lower s), toLowerCase_idem, (trim_lower (trim s)).
  now rewrite trim_idem.
Qed.

Lemma trimEnd_allWhite (s : string) : allWhite s = true -> trimEnd s = EmptyString.
Proof.
  induction s as [|c rest IH]; simpl; [reflexivity|].
  intros H. apply andb_true_iff in H as [W H]. now rewrite (IH H), W.
Qed.

Lemma trimStart_app_white (ws s : string) :
  allWhite ws = true -> trimStart (ws ++ s) = trimStart s.
Proof.
  induction ws as [|c rest IH]; simpl; [reflexivity|].
  intros H. apply andb_true_iff in H as [W H]. rewrite W. now apply IH.
Qed.

Lemma trimEnd_app_white (s ws : string) :
  allWhite ws = true -> trimEnd (s ++ ws) = trimEnd s.
Proof.
  intros H. induction s as [|c rest IH]; simpl.
  - now apply trimEnd_allWhite.
  - now rewrite IH.
Qed.

Lemma trimStart_app (s t : string) :
  trimStart (s ++ t)
  = if allWhite s then trimStart t else (trimStart s ++ t)%string.
Proof.
  induction s as [|c rest IH]; simpl; [reflexivity|].
  destruct (is_white_space c); simpl; [exact IH|reflexivity].
Qed.

Lemma trimStart_allWhite (s : string) :
  allWhite s = true -> trimStart s = EmptyString.
Proof.
  induction s as [|c rest IH]; simpl; [reflexivity|].
  intros H. apply andb_true_iff in H as [W H]. rewrite W. now apply IH.
Qed.

(** White space around a text does not reach its normal form. *)
Lemma normalize_padded (before s after : string) :
  allWhite before = true -> allWhite after = true ->
  normalize (before ++ s ++ after) = normalize s.
Proof.
  intros Hb Ha. unfold normalize. rewrite !trim_lower. f_equal.
  unfold trim. rewrite (trimStart_app_white before _ Hb), trimStart_app.
  destruct (allWhite s) eqn:Ws.
  - rewrite (trimStart_allWhite after Ha), (trimStart_allWhite s Ws).
    reflexivity.
  - now apply trimEnd_app_white.
Qed.

End Normalize.

(* ================================================================== *)
(** * More on the answer check                                        *)
(* ================================================================== *)

Section AnswerCheck.

(** The state a successful check leaves. *)
Lemma checkAnswer_normal (s s' : state) :
  checkAnswer s = Normal s' ->
  exists w,
    word (currentExercise s) = VString w
    /\ s' = mkState (exercises s) (currentExerciseIndex s) (userAnswer s)
              (if String.eqb (normalize w) (normalize (userAnswer s))
               then correctFeedback else notQuiteFeedback (VString w))
              (Some (String.eqb (normalize w) (normalize (userAnswer s))))
              (showMeaning s) (loading s)
              (mkScore (correct (stats s)
                        + (if String.eqb (normalize w)
                                         (normalize (userAnswer s))
                           then 1 else 0))
                       (total (stats s) + 1))
              (exerciseMode s).
Proof.
  unfold checkAnswer, checkAnswerWith.
  destruct (word (currentExercise s)) as [|w|n|b] eqn:E; try discriminate.
  cbn [call_string_method bind]. intros H. injection H as <-.
  exists w. split; reflexivity.
Qed.

Lemma checkAnswer_string (s : state) (w : string) :
  word (currentExercise s) = VString w ->
  exists s', checkAnswer s = Normal s'.
Proof.
  intros E. unfold checkAnswer, checkAnswerWith. rewrite E. cbn [call_string_method bind]. eauto.
Qed.

Lemma feedback_not_empty (w : value) (v : bool) :
  (if v then correctFeedback else notQuiteFeedback w) <> EmptyString.
Proof. destruct v; discriminate. Qed.

End AnswerCheck.

(** X7: A check that completes writes [isCorrect], the feedback text and the
    score only: exercises, cursor, typed answer, meaning toggle, loading
    flag and mode stay; the feedback is never empty, [isCorrect] is no
    longer unknown, and [correct] grows by at most the one [total] grows
    by. *)
Theorem checkAnswer_frame (s s' : state) :
  checkAnswer s = Normal s' ->
  (exercises s' = exercises s
   /\ currentExerciseIndex s' = currentExerciseIndex s
   /\ userAnswer s' = userAnswer s
   /\ showMeaning s' = showMeaning s
   /\ loading s' = loading s
   /\ exerciseMode s' = exerciseMode s)
  /\ isCorrect s' <> None
  /\ feedback s' <> EmptyString
  /\ total (stats s') = total (stats s) + 1
  /\ correct (stats s) <= correct (stats s') <= correct (stats s) + 1.
Proof.
  intros H. destruct (checkAnswer_normal s s' H) as [w [_ ->]]. simpl.
  split; [repeat split|]. split; [discriminate|].
  split; [apply feedback_not_empty|]. split; [reflexivity|].
  destruct (String.eqb _ _); lia.
Qed.

Lemma checkAnswer_frame_witness :
  exists s',
    checkAnswer (typeAnswer "cow" (loaded dogCatBird)) = Normal s'
    /\ userAnswer s' = "cow"%string /\ total (stats s') = 1.
Proof.
  eexists. split; [reflexivity|].
  destruct (checkAnswer_frame (typeAnswer "cow" (loaded dogCatBird)) _ eq_refl)
    as [[_ [_ [Hu _]]] [_ [_ [Ht _]]]].
  split; [exact Hu|exact Ht].
Defined.

(** X8: The verdict does not see white space around the answer or the case of
    its letters: two answers with the same letters up to case, one of them
    padded with white space, are judged alike and score alike; and the
    word itself, in any case and padding, is accepted. *)
Theorem checkAnswer_padding_and_case
    (s : state) (w u u' before after : string) :
  word (currentExercise s) = VString w ->
  toLowerCase u' = toLowerCase u ->
  allWhite before = true ->
  allWhite after = true ->
  exists s1 s2,
    checkAnswer (typeAnswer u s) = Normal s1
    /\ checkAnswer (typeAnswer (before ++ u' ++ after) s) = Normal s2
    /\ isCorrect s2 = isCorrect s1
    /\ stats s2 = stats s1
    /\ (toLowerCase u = toLowerCase w -> isCorrect s2 = Some true).
Proof.
  intros Hw Hu Hb Ha.
  assert (N : normalize (before ++ u' ++ after) = normalize u).
  { rewrite (normalize_padded before u' after Hb Ha).
    unfold normalize. now rewrite Hu. }
  destruct (checkAnswer_string (typeAnswer u s) w Hw) as [s1 H1].
  destruct (checkAnswer_string (typeAnswer (before ++ u' ++ after) s) w Hw)
    as [s2 H2].
  exists s1, s2. split; [exact H1|]. split; [exact H2|].
  destruct (checkAnswer_normal _ _ H1) as [w1 [E1 ->]].
  destruct (checkAnswer_normal _ _ H2) as [w2 [E2 ->]].
  change (word (currentExercise s) = VString w1) in E1.
  change (word (currentExercise s) = VString w2) in E2.
  assert (w1 = w) by congruence. assert (w2 = w) by congruence. subst w1 w2.
  cbn [isCorrect stats typeAnswer setUserAnswer userAnswer].
  rewrite N. split; [reflexivity|]. split; [reflexivity|].
  intros E. unfold normalize. rewrite E. now rewrite String.eqb_refl.
Qed.

Lemma checkAnswer_padding_and_case_witness :
  exists s2,
    checkAnswer (typeAnswer "  CAT " (loaded [anExercise (VString "Cat")]))
    = Normal s2
    /\ isCorrect s2 = Some true.
Proof.
  destruct (checkAnswer_padding_and_case
              (loaded [anExercise (VString "Cat")])
              "Cat" "cat" "CAT" "  " " " eq_refl eq_refl eq_refl eq_refl)
    as [s1 [s2 [_ [H2 [_ [_ Hc]]]]]].
  exists s2. split; [exact H2|]. apply Hc. reflexivity.
Defined.

(** X9: The Enter handler of the answer field never scores twice in a row: a
    second Enter right after the first changes nothing, and one Enter adds
    at most 1 to [total]. *)
Theorem pressEnter_once (s s' : state) :
  pressEnter s = Normal s' ->
  pressEnter s' = Normal s'
  /\ total (stats s) <= total (stats s') <= total (stats s) + 1.
Proof.
  unfold pressEnter.
  destruct (negb (String.eqb (userAnswer s) EmptyString)
            && match isCorrect s with None => true | Some _ => false end)%bool
    eqn:G.
  - intros H. destruct (checkAnswer_normal s s' H) as [w [_ ->]]. simpl.
    rewrite andb_false_r. split; [reflexivity|lia].
  - intros H. injection H as <-. rewrite G. split; [reflexivity|lia].
Qed.

Lemma pressEnter_once_witness :
  exists s',
    pressEnter (typeAnswer "dog" (loaded dogCatBird)) = Normal s'
    /\ pressEnter s' = Normal s' /\ total (stats s') = 1.
Proof.
  eexists. split; [reflexivity|].
  split; [|reflexivity].
  apply (pressEnter_once (typeAnswer "dog" (loaded dogCatBird)) _ eq_refl).
Defined.

(** X10: [handleKeyPress]: Enter on an unchecked exercise checks the answer,
    empty or not, and counts it; the next Enter moves on with
    [nextExercise] and leaves the score alone. *)
Theorem handleKeyPress_enter_twice (s s1 : state) :
  isCorrect s = None ->
  handleKeyPress "Enter" s = Normal s1 ->
  total (stats s1) = total (stats s) + 1
  /\ handleKeyPress "Enter" s1 = Normal (nextExercise s1)
  /\ stats (nextExercise s1) = stats s1.
Proof.
  intros Hn. unfold handleKeyPress. simpl String.eqb. rewrite Hn.
  intros H. destruct (checkAnswer_normal s s1 H) as [w [_ ->]]. simpl.
  repeat split. unfold nextExercise, nextExerciseIn. now destruct (_ <? _).
Qed.

Lemma handleKeyPress_enter_twice_witness :
  exists s1,
    handleKeyPress "Enter" (loaded dogCatBird) = Normal s1
    /\ total (stats s1) = 1
    /\ handleKeyPress "Enter" s1 = Normal (nextExercise s1).
Proof.
  eexists. split; [reflexivity|].
  destruct (handleKeyPress_enter_twice (loaded dogCatBird) _ eq_refl eq_refl)
    as [Ht [Hn _]].
  split; [exact Ht|exact Hn].
Defined.

(* ================================================================== *)
(** * More on navigation                                              *)
(* ================================================================== *)

(** X11: Show Meaning, pressed twice, gives the state back. *)
Theorem toggleMeaning_twice (s : state) : toggleMeaning (toggleMeaning s) = s.
Proof.
  destruct s as [ex i ua fb ic sm ld st md].
  unfold toggleMeaning, setShowMeaning. simpl. now rewrite negb_involutive.
Qed.

Lemma prev_after_next (s : state) :
  0 <= currentExerciseIndex s < Z.of_nat (List.length (exercises s)) - 1 ->
  prevExercise (nextExercise s) = resetExerciseState s.
Proof.
  destruct s as [ex i ua fb ic sm ld st md]. simpl. intros H.
  unfold nextExercise, nextExerciseIn. simpl.
  destruct (Z.ltb_spec i (Z.of_nat (List.length ex) - 1)); [|lia].
  unfold prevExercise, prevExerciseIn. simpl.
  destruct (Z.gtb_spec (i + 1) 0); [|lia].
  replace (i + 1 - 1) with i by lia. reflexivity.
Qed.

Lemma next_after_prev (s : state) :
  0 < currentExerciseIndex s < Z.of_nat (List.length (exercises s)) ->
  nextExercise (prevExercise s) = resetExerciseState s.
Proof.
  destruct s as [ex i ua fb ic sm ld st md]. simpl. intros H.
  unfold prevExercise, prevExerciseIn. simpl.
  destruct (Z.gtb_spec i 0); [|lia].
  unfold nextExercise, nextExerciseIn. simpl.
  destruct (Z.ltb_spec (i - 1) (Z.of_nat (List.length ex) - 1)); [|lia].
  replace (i - 1 + 1) with i by lia. reflexivity.
Qed.

(* ================================================================== *)
(** * More on the loader                                              *)
(* ================================================================== *)

(** X14: Start Again followed by an upload gives a fresh pass whatever the
    session was: the shuffled exercises, cursor 0, score 0 of 0, a reset
    attempt, on the active screen. *)
Theorem restart_then_load
    (shuffle : list exercise -> list exercise)
    (rawData : list (list value)) (exs : list exercise) (s : state) :
  parseRows rawData = Normal exs ->
  loadData shuffle rawData (restartExercises s)
  = Normal (loaded (shuffle exs))
  /\ stats (loaded (shuffle exs)) = mkScore 0 0
  /\ attemptIsReset (loaded (shuffle exs))
  /\ sessionMode (loaded (shuffle exs)) = Active.
Proof.
  intros H. unfold loadData. rewrite H. repeat split.
Qed.

Lemma restart_then_load_witness :
  exists exs,
    parseRows sheetOfThree = Normal exs
    /\ loadData (@rev exercise) sheetOfThree
                (restartExercises finishedSession)
       = Normal (loaded (rev exs)).
Proof.
  eexists. split; [reflexivity|].
  apply (restart_then_load (@rev exercise) sheetOfThree _ finishedSession).
  reflexivity.
Defined.

(** X15: With a shuffle that permutes, a load drops and duplicates nothing: the
    exercise set is a permutation of the parsed exercises and has as many
    entries as the sheet has non-empty data rows. *)
Theorem loadData_permutes
    (shuffle : list exercise -> list exercise)
    (rawData : list (list value)) (s s' : state) :
  (forall l, Permutation l (shuffle l)) ->
  loadData shuffle rawData s = Normal s' ->
  exists exs,
    parseRows rawData = Normal exs
    /\ Permutation exs (exercises s')
    /\ List.length (exercises s')
       = List.length (filter nonEmptyRow (skipn 1 rawData)).
Proof.
  intros Hperm H. destruct (loadData_effect shuffle rawData s s' H)
    as [exs [Hp ->]].
  exists exs. split; [exact Hp|]. simpl. split; [apply Hperm|].
  rewrite <- (Permutation_length (Hperm exs)).
  destruct (forallb questionIsText (skipn 1 rawData)) eqn:E.
  - unfold parseRows in Hp.
    destruct (processRows_text (skipn 1 rawData) E []) as [added [Ha Hf]].
    rewrite Ha in Hp. injection Hp as <-. simpl.
    symmetry. eapply Forall2_length, Hf.
  - rewrite (parseRows_throws rawData E) in Hp. discriminate Hp.
Qed.

Lemma loadData_permutes_witness :
  exists s',
    loadData (@rev exercise) sheetOfThree initialState = Normal s'
    /\ List.length (exercises s') = 3%nat.
Proof.
  eexists. split; [reflexivity|].
  destruct (loadData_permutes (@rev exercise) sheetOfThree initialState _
              (@Permutation_rev exercise) eq_refl) as [exs [_ [_ Hl]]].
  exact Hl.
Defined.

(* ================================================================== *)
(** * What every handler keeps                                        *)
(* ================================================================== *)

Section Invariants.

Ltac handler_cases ev s H :=
  destruct ev as [shuffle [rawData|] |text| | | | | | | |[| |]];
  simpl in H; unfold pressEnter in H;
  try match type of H with
      | context [if ?g then checkAnswer _ else _] => destruct g
      end;
  try (injection H as <-);
  try (apply checkAnswer_normal in H as [w [_ ->]]);
  try (apply loadData_effect in H as [exs [_ ->]]);
  unfold nextExercise, prevExercise, nextExerciseIn, prevExerciseIn;
  try match goal with
      | |- context [?a <? ?b] => destruct (Z.ltb_spec a b)
      end;
  try match goal with
      | |- context [?a >? ?b] => destruct (Z.gtb_spec a b)
      end;
  simpl in *.

(** What a handler does to the score: nothing, one more answer, or a
    reset to 0 of 0. *)
Lemma handler_score (ev : event) (s s' : state) :
  handler ev s = Normal s' ->
  stats s' = stats s
  \/ (total (stats s') = total (stats s) + 1
      /\ correct (stats s) <= correct (stats s') <= correct (stats s) + 1)
  \/ stats s' = mkScore 0 0.
Proof.
  intros H. handler_cases ev s H; auto.
  all: right; left; split; [reflexivity|]; destruct (String.eqb _ _); lia.
Qed.

Lemma handler_scoreOk (ev : event) (s s' : state) :
  handler ev s = Normal s' -> scoreOk s -> scoreOk s'.
Proof.
  intros H. unfold scoreOk.
  destruct (handler_score ev s s' H) as [->|[[-> Hc]| ->]]; simpl; lia.
Qed.

Lemma handler_cursorInRange (ev : event) (s s' : state) :
  handler ev s = Normal s' -> cursorInRange s -> cursorInRange s'.
Proof.
  intros H. unfold cursorInRange.
  handler_cases ev s H; intros [H0 H1]; try lia.
Qed.

Lemma handler_cursor_nonneg (ev : event) (s s' : state) :
  handler ev s = Normal s' ->
  0 <= currentExerciseIndex s -> 0 <= currentExerciseIndex s'.
Proof.
  intros H. handler_cases ev s H; intros H0; try lia.
Qed.

Lemma handleKeyDownIn_keeps (r : state) (k : key) (s : state) :
  stats (handleKeyDownIn r k s) = stats s
  /\ exercises (handleKeyDownIn r k s) = exercises s
  /\ loading (handleKeyDownIn r k s) = loading s.
Proof.
  destruct k; simpl; unfold nextExerciseIn, prevExerciseIn;
    try destruct (_ <? _); try destruct (_ >? _); repeat split.
Qed.

Lemma handleKeyDownIn_cursor (r : state) (k : key) (s : state) :
  currentExerciseIndex r = currentExerciseIndex s ->
  0 <= currentExerciseIndex s ->
  0 <= currentExerciseIndex (handleKeyDownIn r k s).
Proof.
  intros E H. destruct k; simpl; unfold nextExerciseIn, prevExerciseIn.
  - destruct (_ <? _); simpl; lia.
  - destruct (Z.gtb_spec (currentExerciseIndex r) 0); simpl; lia.
  - exact H.
Qed.

Lemma rerender_cursor (p : page) (s' : state) :
  currentExerciseIndex (listener p) = currentExerciseIndex (current p) ->
  currentExerciseIndex (listener (rerender p s')) = currentExerciseIndex s'.
Proof.
  intros H. unfold rerender. simpl.
  destruct (Z.eqb_spec (currentExerciseIndex s')
                       (currentExerciseIndex (current p))); congruence.
Qed.

Lemma fire_keeps (ev : event) (p : page) : pageOk p -> pageOk (fire ev p).
Proof.
  intros Hp. pose proof Hp as [Hl [Hs Hc]]. unfold fire.
  destruct (offered ev (current p)); [|exact Hp].
  assert (K : forall k,
             pageOk (rerender p (handleKeyDownIn (listener p) k (current p)))).
  { intros k. split; [now apply rerender_cursor|]. simpl.
    destruct (handleKeyDownIn_keeps (listener p) k (current p)) as [E _].
    split; [unfold scoreOk; now rewrite E|].
    now apply handleKeyDownIn_cursor. }
  assert (O : forall s', handler ev (current p) = Normal s' ->
                         pageOk (rerender p s')).
  { intros s' H. split; [now apply rerender_cursor|]. simpl.
    split; [eapply handler_scoreOk|eapply handler_cursor_nonneg]; eauto. }
  destruct ev; try apply K;
    (destruct (handler _ (current p)) as [s'|] eqn:H;
     [now apply O|exact Hp]).
Qed.

Lemma handleKeyDownIn_same (k : key) (s : state) :
  handleKeyDownIn s k s = handleKeyDown k s.
Proof. now destruct k. Qed.

Lemma currentExercise_empty (s : state) :
  Z.of_nat (List.length (exercises s)) <= currentExerciseIndex s ->
  currentExercise s = emptyObject.
Proof.
  intros H. unfold currentExercise, at_index.
  destruct (Z.ltb_spec (currentExerciseIndex s) 0); [reflexivity|].
  destruct (nth_error (exercises s) (Z.to_nat (currentExerciseIndex s)))
    eqn:N; [|reflexivity].
  assert (L : nth_error (exercises s) (Z.to_nat (currentExerciseIndex s))
              <> None) by congruence.
  apply nth_error_Some in L. lia.
Qed.

End Invariants.

(** X17: Only a check and Start Again touch the score: every other handler
    (upload, typing, previous, next, retry, show meaning, arrow keys)
    leaves it as it is; Start Again resets it to 0 of 0; a check, by
    button or by Enter, either does nothing or adds one answer and at most
    one right answer. *)
Theorem score_changes_only_on_check_and_restart
    (ev : event) (s s' : state) :
  handler ev s = Normal s' ->
  (ev = ClickStartAgain -> stats s' = mkScore 0 0)
  /\ (ev <> InputEnter -> ev <> ClickCheck -> ev <> ClickStartAgain ->
      stats s' = stats s)
  /\ (ev = InputEnter \/ ev = ClickCheck ->
      stats s' = stats s
      \/ (total (stats s') = total (stats s) + 1
          /\ correct (stats s) <= correct (stats s') <= correct (stats s) + 1)).
Proof.
  intros H. split; [|split].
  - intros ->. simpl in H. now injection H as <-.
  - intros N1 N2 N3.
    destruct ev as [shuffle [rawData|] |text| | | | | | | |[| |]];
      try congruence; simpl in H;
      try (injection H as <-);
      try (apply loadData_effect in H as [exs [_ ->]]);
      unfold nextExercise, prevExercise, nextExerciseIn, prevExerciseIn;
      try destruct (_ <? _); try destruct (_ >? _); reflexivity.
  - intros [-> | ->]; simpl in H.
    + unfold pressEnter in H. destruct (_ && _)%bool.
      * apply checkAnswer_normal in H as [w [_ ->]]. simpl.
        right. split; [reflexivity|]. destruct (String.eqb _ _); lia.
      * injection H as <-. now left.
    + apply checkAnswer_normal in H as [w [_ ->]]. simpl.
      right. split; [reflexivity|]. destruct (String.eqb _ _); lia.
Qed.

Lemma score_changes_only_on_check_and_restart_witness :
  stats (nextExercise finishedSession) = stats finishedSession.
Proof.
  apply (score_changes_only_on_check_and_restart ClickNext finishedSession
           (nextExercise finishedSession) eq_refl); discriminate.
Defined.

(* ================================================================== *)
(** * The page and its key listener                                   *)
(* ================================================================== *)

(** X18: Whatever the user does from the first render on, the installed
    listener was created with the cursor the page has now, the score
    satisfies [0 <= correct <= total], and the cursor is not negative. *)
Theorem play_keeps_page (evs : list event) : pageOk (play evs mount).
Proof.
  assert (G : forall p, pageOk p -> pageOk (play evs p)).
  { unfold play. induction evs as [|ev evs IH]; intros p Hp; simpl; [exact Hp|].
    apply IH. now apply fire_keeps. }
  apply G. unfold pageOk, scoreOk. simpl. lia.
Qed.

(** X19: The listener goes stale over an upload.  If the installed listener
    was created over an empty exercise array at cursor 0 (as on the first
    render), then after an upload, however many exercises it brings, the
    first right arrow does not go to the second exercise: it ends the pass
    and switches to review, with the score untouched. *)
Theorem arrow_right_after_upload
    (p : page) (shuffle : list exercise -> list exercise)
    (rawData : list (list value)) (exs : list exercise) :
  exercises (listener p) = [] ->
  currentExerciseIndex (listener p) = 0 ->
  currentExerciseIndex (current p) = 0 ->
  parseRows rawData = Normal exs ->
  let q := play [SelectFile shuffle (Some rawData); WindowKeyDown ArrowRight] p
  in exercises (current q) = shuffle exs
     /\ currentExerciseIndex (current q) = 0
     /\ exerciseMode (current q) = review
     /\ sessionMode (current q) = Review
     /\ stats (current q) = stats (current p).
Proof.
  intros He Hi Hc Hp. destruct p as [s r]. simpl in *.
  unfold play, fire. simpl. unfold loadData. rewrite Hp. simpl.
  rewrite Hc. simpl. unfold nextExerciseIn. rewrite He, Hi. simpl.
  repeat split.
Qed.

Lemma arrow_right_after_upload_witness :
  let q := play [SelectFile (@rev exercise) (Some sheetOfThree);
                 WindowKeyDown ArrowRight] mount in
  List.length (exercises (current q)) = 3%nat
  /\ sessionMode (current q) = Review
  /\ reviewPercentage (current q) = RNaN
  /\ reviewMessage (current q) = PerfectScore.
Proof.
  cbv zeta.
  destruct (arrow_right_after_upload mount (@rev exercise) sheetOfThree _
              eq_refl eq_refl eq_refl eq_refl) as [He [_ [_ [Hm Hs]]]].
  split; [now rewrite He|]. split; [exact Hm|].
  unfold reviewPercentage, reviewMessage. rewrite Hs. split; reflexivity.
Defined.

(** X20: Once an event has moved the cursor, the listener is the one of the
    render on screen, and the next arrow key acts exactly as
    [nextExercise] or [prevExercise] on the live state. *)
Theorem listener_fresh_after_move (ev : event) (p : page) :
  currentExerciseIndex (current (fire ev p))
  <> currentExerciseIndex (current p) ->
  listener (fire ev p) = current (fire ev p)
  /\ forall k,
       current (fire (WindowKeyDown k) (fire ev p))
       = handleKeyDown k (current (fire ev p)).
Proof.
  intros N.
  assert (L : listener (fire ev p) = current (fire ev p)).
  { unfold fire in *. destruct (offered ev (current p)); [|congruence].
    assert (R : forall s', currentExerciseIndex s'
                           <> currentExerciseIndex (current p) ->
                           listener (rerender p s') = s').
    { intros s' D. unfold rerender. simpl.
      destruct (Z.eqb_spec (currentExerciseIndex s')
                           (currentExerciseIndex (current p))); congruence. }
    destruct ev; try (apply R; exact N);
      (destruct (handler _ (current p)) as [s'|];
       [apply R; exact N|congruence]). }
  split; [exact L|]. intros k.
  unfold fire at 1. simpl offered. cbv iota. rewrite L. simpl.
  apply handleKeyDownIn_same.
Qed.

Lemma listener_fresh_after_move_witness :
  let p := play [SelectFile (fun exs => exs) (Some sheetOfThree);
                 InputChange "dog"; ClickCheck] mount in
  currentExerciseIndex (current (fire ClickNext p)) = 1
  /\ current (fire (WindowKeyDown ArrowRight) (fire ClickNext p))
     = handleKeyDown ArrowRight (current (fire ClickNext p)).
Proof.
  cbv zeta. split; [vm_compute; reflexivity|].
  refine (proj2 (listener_fresh_after_move ClickNext
                   (play [SelectFile (fun exs => exs) (Some sheetOfThree);
                          InputChange "dog"; ClickCheck] mount) _)
                ArrowRight).
  vm_compute. discriminate.
Defined.

(** X21: The cursor can leave the exercise array.  When the listener was
    created over a longer array than the one now loaded, the right arrow
    moves the cursor past the end: the current exercise is then the empty
    object and every check throws. *)
Theorem stale_listener_overrun (p : page) :
  currentExerciseIndex (listener p) = currentExerciseIndex (current p) ->
  0 <= currentExerciseIndex (current p) ->
  currentExerciseIndex (listener p)
  < Z.of_nat (List.length (exercises (listener p))) - 1 ->
  Z.of_nat (List.length (exercises (current p)))
  <= currentExerciseIndex (current p) + 1 ->
  let q := fire (WindowKeyDown ArrowRight) p in
  currentExerciseIndex (current q) = currentExerciseIndex (current p) + 1
  /\ cursorOutOfRange (current q)
  /\ currentExercise (current q) = emptyObject
  /\ forall text, checkAnswer (typeAnswer text (current q)) = Throw TypeError.
Proof.
  intros E H0 Hl Hs. cbv zeta. unfold fire. simpl.
  unfold nextExerciseIn.
  destruct (Z.ltb_spec (currentExerciseIndex (listener p))
              (Z.of_nat (List.length (exercises (listener p))) - 1)); [|lia].
  simpl. rewrite E.
  assert (O : Z.of_nat (List.length (exercises (current p)))
              <= currentExerciseIndex (current p) + 1) by exact Hs.
  split; [reflexivity|]. split; [right; exact O|].
  set (s' := resetExerciseState
               (setCurrentExerciseIndex
                  (currentExerciseIndex (current p) + 1) (current p))).
  assert (C : forall t, currentExercise (typeAnswer t s') = emptyObject).
  { intros t. apply currentExercise_empty. exact O. }
  split.
  - apply currentExercise_empty. exact O.
  - intros text. unfold checkAnswer, checkAnswerWith. now rewrite C.
Qed.

Lemma stale_listener_overrun_witness :
  let p := play [SelectFile (fun exs => exs) (Some sheetOfThree);
                 InputChange "dog"; ClickCheck; ClickNext; ClickPrevious;
                 SelectFile (fun exs => exs) (Some sheetOfOne)] mount in
  List.length (exercises (current p)) = 1%nat
  /\ currentExerciseIndex (current (fire (WindowKeyDown ArrowRight) p)) = 1
  /\ checkAnswer (typeAnswer "tree" (current (fire (WindowKeyDown ArrowRight) p)))
     = Throw TypeError.
Proof.
  cbv zeta. split; [vm_compute; reflexivity|].
  destruct (stale_listener_overrun
              (play [SelectFile (fun exs => exs) (Some sheetOfThree);
                     InputChange "dog"; ClickCheck; ClickNext; ClickPrevious;
                     SelectFile (fun exs => exs) (Some sheetOfOne)] mount))
    as [Hi [_ [_ Hc]]].
  - vm_compute. reflexivity.
  - vm_compute. discriminate.
  - vm_compute. reflexivity.
  - vm_compute. discriminate.
  - split; [exact Hi|apply Hc].
Defined.

(* ================================================================== *)
(** * Navigation on the page                                          *)
(* ================================================================== *)

Section PageNavigation.

Lemma fire_control (ev : event) (p : page) (s' : state) :
  isControl ev = true ->
  offered ev (current p) = true ->
  handler ev (current p) = Normal s' ->
  fire ev p = rerender p s'.
Proof.
  intros N O H. unfold fire. rewrite O.
  destruct ev; try discriminate N; now rewrite H.
Qed.

Lemma fire_control_current (ev : event) (p : page) :
  isControl ev = true ->
  current (fire ev p) = current p
  \/ handler ev (current p) = Normal (current (fire ev p)).
Proof.
  intros N. unfold fire. destruct (offered ev (current p)); [|now left].
  destruct ev; try discriminate N;
    (destruct (handler _ (current p)) as [s'|] eqn:H; [now right|now left]).
Qed.

Lemma rerender_same (p : page) : rerender p (current p) = p.
Proof. destruct p as [s r]. unfold rerender. simpl. now rewrite Z.eqb_refl. Qed.

Lemma rerender_moved (p : page) (s' : state) :
  currentExerciseIndex s' <> currentExerciseIndex (current p) ->
  listener (rerender p s') = s'.
Proof.
  intros N. unfold rerender. simpl.
  destruct (Z.eqb_spec (currentExerciseIndex s')
                       (currentExerciseIndex (current p))); congruence.
Qed.

Lemma nextExerciseIn_same_view (r s : state) :
  currentExerciseIndex r = currentExerciseIndex s ->
  List.length (exercises r) = List.length (exercises s) ->
  nextExerciseIn r s = nextExercise s.
Proof.
  intros Ei El. unfold nextExercise, nextExerciseIn. now rewrite Ei, El.
Qed.

Lemma prevExerciseIn_same_cursor (r s : state) :
  currentExerciseIndex r = currentExerciseIndex s ->
  prevExerciseIn r s = prevExercise s.
Proof. intros Ei. unfold prevExercise, prevExerciseIn. now rewrite Ei. Qed.

Lemma fire_key_fresh (k : key) (q : page) :
  listener q = current q ->
  current (fire (WindowKeyDown k) q) = handleKeyDown k (current q).
Proof. intros L. unfold fire. simpl. now rewrite L. Qed.

Lemma handleKeyDownIn_review (r : state) (k : key) (s : state) :
  exerciseMode s = review -> exerciseMode (handleKeyDownIn r k s) = review.
Proof.
  intros H. destruct k; simpl; unfold nextExerciseIn, prevExerciseIn;
    try destruct (_ <? _); try destruct (_ >? _); simpl; auto.
Qed.

Lemma play_keys_review (ks : list key) :
  forall p,
    loading (current p) = false ->
    exerciseMode (current p) = review ->
    loading (current (play (map WindowKeyDown ks) p)) = false
    /\ exerciseMode (current (play (map WindowKeyDown ks) p)) = review
    /\ stats (current (play (map WindowKeyDown ks) p)) = stats (current p)
    /\ exercises (current (play (map WindowKeyDown ks) p))
       = exercises (current p).
Proof.
  unfold play. induction ks as [|k ks IH]; intros p Hl Hm; simpl; [auto|].
  destruct (handleKeyDownIn_keeps (listener p) k (current p)) as [Hs [He Hl']].
  pose proof (handleKeyDownIn_review (listener p) k (current p) Hm) as Hm'.
  destruct (IH (fire (WindowKeyDown k) p)) as [A [B [C D]]].
  - simpl. congruence.
  - exact Hm'.
  - repeat split; auto; simpl in *; congruence.
Qed.

Lemma sessionMode_same (s s' : state) :
  loading s' = loading s -> exerciseMode s' = exerciseMode s ->
  sessionMode s' = sessionMode s.
Proof. intros Hl Hm. unfold sessionMode. now rewrite Hl, Hm. Qed.

Lemma isActive_iff (s : state) :
  isActive s = true <-> sessionMode s = Active.
Proof. unfold isActive. destruct (sessionMode s); split; congruence. Qed.

End PageNavigation.

(** C5, as the code has it.  In review the buttons are gone and
    [next]/[previous] are the arrow keys.  No run of them changes the
    mode, the score or the exercise set; [previous] is a no-op at cursor
    0, but with cursor > 0 it still decrements the cursor and resets the
    attempt state; and when the installed listener saw an exercise array
    as long as the current one, [next] is a no-op at or past the last
    index and otherwise increments the cursor and resets the attempt
    state.  (That the listener has the cursor of the live state is true
    of every page reached from the first render.) *)
Theorem review_navigation (p : page) (ks : list key) :
  sessionMode (current p) = Review ->
  currentExerciseIndex (listener p) = currentExerciseIndex (current p) ->
  (offered ClickNext (current p) = false
   /\ offered ClickPrevious (current p) = false)
  /\ (sessionMode (current (play (map WindowKeyDown ks) p)) = Review
      /\ stats (current (play (map WindowKeyDown ks) p)) = stats (current p)
      /\ exercises (current (play (map WindowKeyDown ks) p))
         = exercises (current p))
  /\ (currentExerciseIndex (current p) <= 0 ->
      fire (WindowKeyDown ArrowLeft) p = p)
  /\ (0 < currentExerciseIndex (current p) ->
      currentExerciseIndex (current (fire (WindowKeyDown ArrowLeft) p))
      = currentExerciseIndex (current p) - 1
      /\ attemptIsReset (current (fire (WindowKeyDown ArrowLeft) p)))
  /\ (List.length (exercises (listener p))
      = List.length (exercises (current p)) ->
      (Z.of_nat (List.length (exercises (current p))) - 1
       <= currentExerciseIndex (current p) ->
       fire (WindowKeyDown ArrowRight) p = p)
      /\ (currentExerciseIndex (current p)
          < Z.of_nat (List.length (exercises (current p))) - 1 ->
          currentExerciseIndex (current (fire (WindowKeyDown ArrowRight) p))
          = currentExerciseIndex (current p) + 1
          /\ attemptIsReset (current (fire (WindowKeyDown ArrowRight) p)))).
Proof.
  intros Hrev Hc. pose proof Hrev as Hrev'.
  apply sessionMode_review in Hrev as [Hl Hm].
  split; [|split; [|split; [|split]]].
  - unfold offered, isActive. rewrite Hrev'. split; reflexivity.
  - destruct (play_keys_review ks p Hl Hm) as [A [B [C D]]].
    split; [|split]; auto. apply sessionMode_review. now split.
  - intros H. unfold fire. simpl. unfold prevExerciseIn.
    destruct (Z.gtb_spec (currentExerciseIndex (listener p)) 0); [lia|].
    apply rerender_same.
  - intros H. unfold fire. simpl. unfold prevExerciseIn.
    destruct (Z.gtb_spec (currentExerciseIndex (listener p)) 0); [|lia].
    simpl. split; [lia|apply resetExerciseState_resets].
  - intros El. unfold fire. simpl. unfold nextExerciseIn. rewrite Hc, El.
    split; intros H.
    + destruct (Z.ltb_spec (currentExerciseIndex (current p))
                  (Z.of_nat (List.length (exercises (current p))) - 1));
        [lia|].
      replace (setExerciseMode review (current p)) with (current p).
      * apply rerender_same.
      * destruct (current p); simpl in *; subst; reflexivity.
    + destruct (Z.ltb_spec (currentExerciseIndex (current p))
                  (Z.of_nat (List.length (exercises (current p))) - 1));
        [|lia].
      simpl. split; [reflexivity|apply resetExerciseState_resets].
Qed.

Lemma review_navigation_witness :
  sessionMode
    (current (play (map WindowKeyDown [ArrowLeft; ArrowRight; ArrowRight])
                   reviewPage)) = Review
  /\ stats
       (current (play (map WindowKeyDown [ArrowLeft; ArrowRight; ArrowRight])
                      reviewPage)) = stats (current reviewPage).
Proof.
  assert (H1 : sessionMode (current reviewPage) = Review)
    by (vm_compute; reflexivity).
  assert (H2 : currentExerciseIndex (listener reviewPage)
               = currentExerciseIndex (current reviewPage))
    by (vm_compute; reflexivity).
  destruct (review_navigation reviewPage [ArrowLeft; ArrowRight; ArrowRight]
              H1 H2) as [_ [[Hm [Hs _]] _]].
  split; [exact Hm|exact Hs].
Defined.

(** C5 as worded fails: on the review screen reached after the third of
    three exercises, [previous] (the left arrow) moves the cursor from 2
    to 1. *)
Lemma review_previous_moves_cursor :
  sessionMode (current reviewPage) = Review
  /\ currentExerciseIndex (current reviewPage) = 2
  /\ currentExerciseIndex
       (current (fire (WindowKeyDown ArrowLeft) reviewPage)) = 1
  /\ fire (WindowKeyDown ArrowLeft) reviewPage <> reviewPage.
Proof.
  split; [vm_compute; reflexivity|]. split; [vm_compute; reflexivity|].
  split; [vm_compute; reflexivity|].
  intros H.
  apply (f_equal (fun q => currentExerciseIndex (current q))) in H.
  vm_compute in H. discriminate H.
Qed.

(** C8 does not hold of the code.  Right after the first upload of three
    exercises the page is active with the cursor on the first of them;
    nothing is checked yet, so the Next Exercise button is not there and
    [next] is the right arrow.  The installed listener still is that of
    the first render, whose exercise array is empty: it does not
    increment the cursor but switches to review.  The button route, once
    an answer is checked, does increment it. *)
Theorem arrow_right_on_first_exercise_sets_review :
  sessionMode (current uploadedPage) = Active
  /\ List.length (exercises (current uploadedPage)) = 3%nat
  /\ currentExerciseIndex (current uploadedPage) = 0
  /\ offered ClickNext (current uploadedPage) = false
  /\ exercises (listener uploadedPage) = []
  /\ sessionMode (current (fire (WindowKeyDown ArrowRight) uploadedPage))
     = Review
  /\ currentExerciseIndex
       (current (fire (WindowKeyDown ArrowRight) uploadedPage)) = 0
  /\ currentExerciseIndex (current secondExercisePage) = 1.
Proof. vm_compute. repeat split. Qed.

(** X12: on the page, [next] and [previous] undo each other's cursor move
    and leave a reset attempt on the exercise one started from.  Left
    arrow then right arrow does so from any cursor between 1 and the last
    index; right arrow then left arrow, from a cursor before the last
    index, when the installed listener saw the current exercise array;
    and so does the Next Exercise button followed by the Previous
    button. *)
Theorem next_previous_round_trip (p : page) :
  currentExerciseIndex (listener p) = currentExerciseIndex (current p) ->
  (0 < currentExerciseIndex (current p)
     < Z.of_nat (List.length (exercises (current p))) ->
   current (fire (WindowKeyDown ArrowRight) (fire (WindowKeyDown ArrowLeft) p))
   = resetExerciseState (current p))
  /\ (List.length (exercises (listener p))
      = List.length (exercises (current p)) ->
      0 <= currentExerciseIndex (current p)
        < Z.of_nat (List.length (exercises (current p))) - 1 ->
      current (fire (WindowKeyDown ArrowLeft)
                    (fire (WindowKeyDown ArrowRight) p))
      = resetExerciseState (current p))
  /\ (offered ClickNext (current p) = true ->
      0 <= currentExerciseIndex (current p)
        < Z.of_nat (List.length (exercises (current p))) - 1 ->
      current (fire ClickPrevious (fire ClickNext p))
      = resetExerciseState (current p)).
Proof.
  intros Hc. split; [|split].
  - intros H.
    assert (E : current (fire (WindowKeyDown ArrowLeft) p)
                = prevExercise (current p)).
    { unfold fire. simpl. now apply prevExerciseIn_same_cursor. }
    assert (M : currentExerciseIndex (prevExercise (current p))
                <> currentExerciseIndex (current p)).
    { unfold prevExercise, prevExerciseIn.
      destruct (Z.gtb_spec (currentExerciseIndex (current p)) 0); simpl; lia. }
    rewrite fire_key_fresh.
    + rewrite E. simpl. now apply next_after_prev.
    + unfold fire at 1 2. simpl.
      rewrite (prevExerciseIn_same_cursor _ _ Hc).
      now apply rerender_moved.
  - intros El H.
    assert (E : current (fire (WindowKeyDown ArrowRight) p)
                = nextExercise (current p)).
    { unfold fire. simpl. now apply nextExerciseIn_same_view. }
    assert (M : currentExerciseIndex (nextExercise (current p))
                <> currentExerciseIndex (current p)).
    { unfold nextExercise, nextExerciseIn.
      destruct (Z.ltb_spec (currentExerciseIndex (current p))
                  (Z.of_nat (List.length (exercises (current p))) - 1));
        simpl; lia. }
    rewrite fire_key_fresh.
    + rewrite E. simpl. now apply prev_after_next.
    + unfold fire at 1 2. simpl.
      rewrite (nextExerciseIn_same_view _ _ Hc El).
      now apply rerender_moved.
  - intros O H.
    rewrite (fire_control ClickNext p (nextExercise (current p)))
      by (auto; reflexivity).
    assert (N : nextExercise (current p)
                = resetExerciseState
                    (setCurrentExerciseIndex
                       (currentExerciseIndex (current p) + 1) (current p))).
    { unfold nextExercise, nextExerciseIn.
      destruct (Z.ltb_spec (currentExerciseIndex (current p))
                  (Z.of_nat (List.length (exercises (current p))) - 1));
        [reflexivity|lia]. }
    assert (A : isActive (current p) = true).
    { simpl in O. now apply andb_true_iff in O as [A _]. }
    rewrite (fire_control ClickPrevious _
               (prevExercise (nextExercise (current p)))).
    + simpl. now apply prev_after_next.
    + reflexivity.
    + simpl. rewrite N. simpl.
      assert (A' : isActive
                     (resetExerciseState
                        (setCurrentExerciseIndex
                           (currentExerciseIndex (current p) + 1)
                           (current p))) = true).
      { apply isActive_iff. apply isActive_iff in A. rewrite <- A.
        now apply sessionMode_same. }
      rewrite A'. simpl.
      destruct (Z.eqb_spec (currentExerciseIndex (current p) + 1) 0);
        [lia|reflexivity].
    + reflexivity.
Qed.

Lemma next_previous_round_trip_witness :
  current (fire (WindowKeyDown ArrowRight)
             (fire (WindowKeyDown ArrowLeft) secondExercisePage))
  = resetExerciseState (current secondExercisePage).
Proof.
  assert (H : currentExerciseIndex (listener secondExercisePage)
              = currentExerciseIndex (current secondExercisePage))
    by (vm_compute; reflexivity).
  destruct (next_previous_round_trip secondExercisePage H) as [Ha _].
  apply Ha. vm_compute. split; reflexivity.
Defined.

(** X13: answers are not retracted.  On the active page, with an answer
    typed and not yet checked on an exercise that is not the last, the
    buttons Check Answer, Next Exercise, Previous reopen the exercise as
    unanswered; typing the same answer and checking again counts it a
    second time: [total] has grown by 2 and [correct] by 2 or by 0. *)
Theorem revisit_counts_twice (p : page) (w u : string) :
  sessionMode (current p) = Active ->
  isCorrect (current p) = None ->
  userAnswer (current p) = u ->
  u <> EmptyString ->
  word (currentExercise (current p)) = VString w ->
  0 <= currentExerciseIndex (current p)
    < Z.of_nat (List.length (exercises (current p))) - 1 ->
  isCorrect (current (play [ClickCheck; ClickNext; ClickPrevious] p)) = None
  /\ exists b,
       isCorrect
         (current (play [ClickCheck; ClickNext; ClickPrevious;
                         InputChange u; ClickCheck] p)) = Some b
       /\ total (stats (current (play [ClickCheck; ClickNext; ClickPrevious;
                                       InputChange u; ClickCheck] p)))
          = total (stats (current p)) + 2
       /\ correct (stats (current (play [ClickCheck; ClickNext; ClickPrevious;
                                         InputChange u; ClickCheck] p)))
          = correct (stats (current p)) + (if b then 2 else 0)
       /\ currentExerciseIndex
            (current (play [ClickCheck; ClickNext; ClickPrevious;
                            InputChange u; ClickCheck] p))
          = currentExerciseIndex (current p).
Proof.
  intros Hact Hnull Hu Hne Hw Hi.
  assert (A : isActive (current p) = true) by now apply isActive_iff.
  assert (U : String.eqb u EmptyString = false) by now apply String.eqb_neq.
  destruct (checkAnswer_string (current p) w Hw) as [s1 H1].
  destruct (checkAnswer_normal (current p) s1 H1) as [w1 [E1 Hs1]].
  assert (w1 = w) by congruence. subst w1.
  set (b := String.eqb (normalize w) (normalize (userAnswer (current p))))
    in Hs1.
  assert (A1 : forall s', loading s' = loading (current p) ->
                          exerciseMode s' = exerciseMode (current p) ->
                          isActive s' = true).
  { intros s' Hl Hm. apply isActive_iff.
    rewrite (sessionMode_same (current p) s' Hl Hm). exact Hact. }
  (* Check Answer *)
  assert (P1 : current (fire ClickCheck p) = s1).
  { rewrite (fire_control ClickCheck p s1); auto.
    simpl. unfold unanswered. now rewrite A, Hnull, Hu, U. }
  (* Next Exercise *)
  assert (P2 : current (fire ClickNext (fire ClickCheck p)) = nextExercise s1).
  { rewrite (fire_control ClickNext _ (nextExercise s1)); auto.
    - rewrite P1. simpl. unfold unanswered.
      rewrite (A1 s1) by (rewrite Hs1; reflexivity).
      now rewrite Hs1.
    - now rewrite P1. }
  assert (N : nextExercise s1
              = resetExerciseState
                  (setCurrentExerciseIndex
                     (currentExerciseIndex (current p) + 1) s1)).
  { unfold nextExercise, nextExerciseIn. rewrite Hs1. simpl.
    destruct (Z.ltb_spec (currentExerciseIndex (current p))
                (Z.of_nat (List.length (exercises (current p))) - 1));
      [reflexivity|lia]. }
  (* Previous *)
  assert (P3 : current (fire ClickPrevious
                          (fire ClickNext (fire ClickCheck p)))
               = resetExerciseState s1).
  { rewrite (fire_control ClickPrevious _ (prevExercise (nextExercise s1))).
    - simpl. apply prev_after_next. rewrite Hs1. simpl. exact Hi.
    - reflexivity.
    - rewrite P2, N. simpl.
      rewrite (A1 _) by (rewrite Hs1; reflexivity).
      destruct (Z.eqb_spec (currentExerciseIndex (current p) + 1) 0);
        [lia|reflexivity].
    - now rewrite P2. }
  split; [unfold play; simpl; now rewrite P3|].
  (* typing the answer again *)
  assert (P4 : current (fire (InputChange u)
                          (fire ClickPrevious
                             (fire ClickNext (fire ClickCheck p))))
               = typeAnswer u (resetExerciseState s1)).
  { rewrite (fire_control (InputChange u) _
               (typeAnswer u (resetExerciseState s1))).
    - reflexivity.
    - reflexivity.
    - rewrite P3. simpl.
      now rewrite (A1 _) by (rewrite Hs1; reflexivity).
    - now rewrite P3. }
  (* Check Answer again *)
  assert (Hw' : word (currentExercise (typeAnswer u (resetExerciseState s1)))
                = VString w).
  { rewrite Hs1. exact Hw. }
  destruct (checkAnswer_string _ w Hw') as [s2 H2].
  destruct (checkAnswer_normal _ s2 H2) as [w2 [E2 Hs2]].
  assert (w2 = w) by congruence. subst w2.
  assert (P5 : current (play [ClickCheck; ClickNext; ClickPrevious;
                              InputChange u; ClickCheck] p) = s2).
  { unfold play. simpl.
    rewrite (fire_control ClickCheck _ s2).
    - reflexivity.
    - reflexivity.
    - rewrite P4. simpl. unfold unanswered. simpl.
      rewrite (A1 _) by (rewrite Hs1; reflexivity).
      now rewrite U.
    - now rewrite P4. }
  rewrite P5, Hs2, Hs1. simpl. fold b.
  replace (String.eqb (normalize w) (normalize u)) with b
    by (unfold b; now rewrite Hu).
  exists b. repeat split; destruct b; lia.
Qed.

Lemma revisit_counts_twice_witness :
  total (stats (current (play [ClickCheck; ClickNext; ClickPrevious;
                               InputChange "dog"; ClickCheck]
                              (fire (InputChange "dog") uploadedPage))))
  = total (stats (current (fire (InputChange "dog") uploadedPage))) + 2.
Proof.
  destruct (revisit_counts_twice (fire (InputChange "dog") uploadedPage)
              "dog" "dog") as [_ [b [_ [Ht _]]]].
  - vm_compute. reflexivity.
  - vm_compute. reflexivity.
  - vm_compute. reflexivity.
  - discriminate.
  - vm_compute. reflexivity.
  - vm_compute. split; [discriminate|reflexivity].
  - exact Ht.
Defined.

(** X16: what keeps the cursor in range.  From a page whose score
    satisfies [0 <= correct <= total] and whose cursor is inside the
    exercise array (or 0 on an empty one), every run of buttons, fields
    and uploads, with no key on the window, leads to a page with both
    again; and so does an arrow key when the installed listener saw an
    exercise array as long as the current one. *)
Theorem controls_keep_cursor_in_range (p : page) :
  scoreOk (current p) ->
  cursorInRange (current p) ->
  (forall evs, forallb isControl evs = true ->
     scoreOk (current (play evs p)) /\ cursorInRange (current (play evs p)))
  /\ (forall k,
        currentExerciseIndex (listener p) = currentExerciseIndex (current p) ->
        List.length (exercises (listener p))
        = List.length (exercises (current p)) ->
        scoreOk (current (fire (WindowKeyDown k) p))
        /\ cursorInRange (current (fire (WindowKeyDown k) p))).
Proof.
  intros Hs Hc. split.
  - intros evs. unfold play. revert p Hs Hc.
    induction evs as [|ev evs IH]; intros p Hs Hc Hev; simpl; [now split|].
    simpl in Hev. apply andb_true_iff in Hev as [Hctl Hrest].
    apply IH; [| |exact Hrest];
      destruct (fire_control_current ev p Hctl) as [E|E];
      try (rewrite E; assumption).
    + eapply handler_scoreOk; eauto.
    + eapply handler_cursorInRange; eauto.
  - intros k Ei El.
    assert (E : current (fire (WindowKeyDown k) p)
                = handleKeyDown k (current p)).
    { unfold fire. simpl. destruct k; simpl.
      - now apply nextExerciseIn_same_view.
      - now apply prevExerciseIn_same_cursor.
      - reflexivity. }
    rewrite E. split.
    + eapply (handler_scoreOk (WindowKeyDown k)); [reflexivity|exact Hs].
    + eapply (handler_cursorInRange (WindowKeyDown k)); [reflexivity|exact Hc].
Qed.

Lemma controls_keep_cursor_in_range_witness :
  cursorInRange
    (current (play [SelectFile (@rev exercise) (Some sheetOfThree);
                    InputChange "bird"; ClickCheck; ClickNext; ClickPrevious;
                    SelectFile (@rev exercise) (Some sheetOfOne)] mount)).
Proof.
  assert (Hs : scoreOk (current mount)) by (unfold scoreOk; simpl; lia).
  assert (Hc : cursorInRange (current mount))
    by (unfold cursorInRange; simpl; lia).
  destruct (controls_keep_cursor_in_range mount Hs Hc) as [Hrun _].
  apply Hrun. reflexivity.
Defined.
